(** * README to slide-deck converter: a shallow embedding of [ppt.py]

    The development follows the source file function by function:
    - [Str]: the operations of Python's [str] that the program uses, over
      lists of Unicode code points;
    - [Re]: the fragment of Python's [re] that the program's patterns need,
      as a backtracking matcher with greedy and lazy repetition;
    - [Ppt]: [parse_readme_content], [extract_key_points],
      [extract_code_blocks], the slide constructors and
      [generate_ppt_from_readme], with the presentation object modelled as
      the list of slides appended so far.  The conversion depends on two
      things outside the program, which the model takes as parameters:
      [str.title], and the characters that the presentation library
      accepts in a text (it raises on the others). *)

From Stdlib Require Import String Ascii.
From Stdlib Require Import List NArith Arith Lia Bool.
Import ListNotations.

(* ================================================================== *)
(** * Python strings *)
(* ================================================================== *)

Module Str.

(** A Python [str] is a sequence of Unicode code points. *)
Definition char : Type := N.
Definition str : Type := list char.

Definition ch (a : ascii) : char := N_of_ascii a.

Definition nl : char := 10%N.

(** [py "..."] reads an ASCII literal the way Python reads a plain string
    literal: a backslash followed by [n] stands for the newline character. *)
Fixpoint py (s : string) : str :=
  match s with
  | EmptyString => []
  | String "\" (String "n" s') => nl :: py s'
  | String a s' => ch a :: py s'
  end.

Definition eqb (a b : str) : bool :=
  if list_eq_dec N.eq_dec a b then true else false.

(** [str.isspace] on one character, which is also what [\s] matches in a
    [str] pattern: the white space of the Unicode database. *)
Definition is_space (c : char) : bool :=
  ((9 <=? c) && (c <=? 13) || (28 <=? c) && (c <=? 32)
   || (c =? 133) || (c =? 160) || (c =? 5760)
   || (8192 <=? c) && (c <=? 8202)
   || (c =? 8232) || (c =? 8233) || (c =? 8239) || (c =? 8287)
   || (c =? 12288))%N.

(** The zero digits of the decimal-digit runs (category [Nd]) of the
    Unicode database, version 14.0.0: every run has ten code points. *)
Definition decimal_zeros : list N :=
  [48; 1632; 1776; 1984; 2406; 2534; 2662; 2790; 2918; 3046; 3174; 3302;
   3430; 3558; 3664; 3792; 3872; 4160; 4240; 6112; 6160; 6470; 6608; 6784;
   6800; 6992; 7088; 7232; 7248; 42528; 43216; 43264; 43472; 43504; 43600;
   44016; 65296; 66720; 68912; 69734; 69872; 69942; 70096; 70384; 70736;
   70864; 71248; 71360; 71472; 71904; 72016; 72784; 73040; 73120; 92768;
   92864; 93008; 120782; 120792; 120802; 120812; 120822; 123200; 123632;
   125264; 130032]%N.

(** What [\d] matches in a [str] pattern. *)
Definition is_decimal (c : char) : bool :=
  existsb (fun z => (z <=? c) && (c <? z + 10))%N decimal_zeros.

Fixpoint lstrip (p : char -> bool) (s : str) : str :=
  match s with
  | c :: s' => if p c then lstrip p s' else s
  | [] => []
  end.

Definition rstrip (p : char -> bool) (s : str) : str :=
  rev (lstrip p (rev s)).

(** [s.strip(chars)], with the set of characters given as a predicate. *)
Definition strip_with (p : char -> bool) (s : str) : str :=
  rstrip p (lstrip p s).

(** [s.strip()] *)
Definition strip (s : str) : str := strip_with is_space s.

(** [s.strip(chars)] *)
Definition strip_chars (chars : str) (s : str) : str :=
  strip_with (fun c => existsb (N.eqb c) chars) s.

(** [s.split(sep)] for a separator of one character. *)
Fixpoint split (sep : char) (s : str) : list str :=
  match s with
  | [] => [[]]
  | c :: s' =>
      if (c =? sep)%N then [] :: split sep s'
      else match split sep s' with
           | l :: ls => (c :: l) :: ls
           | [] => [[c]]
           end
  end.

(** [sep.join(xs)] *)
Fixpoint join (sep : str) (xs : list str) : str :=
  match xs with
  | [] => []
  | [x] => x
  | x :: xs' => x ++ sep ++ join sep xs'
  end.

(** [s.startswith(prefix)] *)
Fixpoint startswith (prefix s : str) : bool :=
  match prefix, s with
  | [], _ => true
  | p :: prefix', c :: s' => (p =? c)%N && startswith prefix' s'
  | _ :: _, [] => false
  end.

(** [s.count(c)] for a single character [c]. *)
Fixpoint count (c : char) (s : str) : nat :=
  match s with
  | [] => 0
  | d :: s' => (if (d =? c)%N then 1 else 0) + count c s'
  end.

(** [sub in s] *)
Fixpoint contains (sub s : str) : bool :=
  startswith sub s ||
  match s with
  | [] => false
  | _ :: s' => contains sub s'
  end.

(** [c in s] for a single character. *)
Definition has_char (c : char) (s : str) : bool := existsb (N.eqb c) s.

(** [s.replace(old, new)] for a non-empty [old]: occurrences are taken from
    the left and do not overlap.  [skip] counts the characters of the
    occurrence just replaced that are still to be passed over. *)
Fixpoint replace_from (old new : str) (skip : nat) (s : str) : str :=
  match s with
  | [] => []
  | c :: s' =>
      match skip with
      | S k => replace_from old new k s'
      | O =>
          if startswith old s
          then new ++ replace_from old new (length old - 1) s'
          else c :: replace_from old new 0 s'
      end
  end.

Definition replace (old new s : str) : str := replace_from old new 0 s.

Definition is_upper (c : char) : bool := ((65 <=? c) && (c <=? 90))%N.
Definition is_lower (c : char) : bool := ((97 <=? c) && (c <=? 122))%N.
Definition to_lower (c : char) : char := if is_upper c then (c + 32)%N else c.
Definition to_upper (c : char) : char := if is_lower c then (c - 32)%N else c.

(** The lower case of one character.  Two characters outside ASCII have
    an ASCII letter in their lower case: U+0130 gives [i] and U+0307,
    U+212A gives [k].  The other characters outside ASCII are left as
    they are: their lower case holds no ASCII character, so comparing a
    lower-cased string with an ASCII literal gives what Python gives. *)
Definition lower_char (c : char) : str :=
  if (c =? 304)%N then [105; 775]%N
  else if (c =? 8490)%N then [107]%N
  else [to_lower c].

(** [s.lower()] *)
Definition lower (s : str) : str := flat_map lower_char s.

(** [s.title()] for a string of ASCII characters: a letter that follows a
    letter is lower-cased, any other letter is upper-cased.  For the
    letters outside ASCII [str.title] follows the case tables of the
    Unicode database; the conversion takes [str.title] as a parameter,
    and this function stands for it where a run on ASCII text is
    evaluated. *)
Fixpoint title_from (prev_cased : bool) (s : str) : str :=
  match s with
  | [] => []
  | c :: s' =>
      if is_upper c || is_lower c
      then (if prev_cased then to_lower c else to_upper c) :: title_from true s'
      else c :: title_from false s'
  end.

Definition title_ascii (s : str) : str := title_from false s.

End Str.

Import Str.

(* ================================================================== *)
(** * The fragment of Python's [re] used by the program *)
(* ================================================================== *)

Module Re.

(** A pattern is a sequence of items.  Every repetition in the program's
    patterns is over a single character class, and there is at most one
    capturing group.  The repetition [p+] is written [One p; Greedy p]. *)
Inductive item : Type :=
| One (p : char -> bool)      (* a literal or a class, once *)
| Greedy (p : char -> bool)   (* [p*] *)
| Lazy (p : char -> bool)     (* [p*?] *)
| GOpen                       (* [(] *)
| GClose                      (* [)] *)
| Bol                         (* [^] *)
| Eol.                        (* [$] *)

Definition pattern : Type := list item.

Definition lit (a : ascii) : item := One (N.eqb (ch a)).

(** [.] without the DOTALL flag, and with it. *)
Definition dot (c : char) : bool := negb (c =? nl)%N.
Definition dot_all (c : char) : bool := true.

(** Group 1 (when the group took part in the match) and the text left
    after the match. *)
Definition result : Type := (option str * str)%type.

(** [p*]: take as many characters as possible, then give them back one at
    a time until the rest of the pattern, [k], matches. *)
Fixpoint greedy (p : char -> bool) (k : str -> option result) (s : str)
  : option result :=
  match s with
  | c :: s' =>
      if p c then
        match greedy p k s' with
        | Some r => Some r
        | None => k s
        end
      else k s
  | [] => k []
  end.

(** [p*?]: try the rest of the pattern first, take one more character
    each time it fails. *)
Fixpoint lazy (p : char -> bool) (k : str -> option result) (s : str)
  : option result :=
  match k s with
  | Some r => Some r
  | None =>
      match s with
      | c :: s' => if p c then lazy p k s' else None
      | [] => None
      end
  end.

(** The backtracking matcher.  [subject] is the whole string, [s] what is
    left of it at the current position, [opened] what was left when the
    group was opened and [g] the text captured so far. *)
Fixpoint run (subject : str) (pat : pattern) (s opened : str)
         (g : option str) : option result :=
  match pat with
  | [] => Some (g, s)
  | One p :: pat' =>
      match s with
      | c :: s' => if p c then run subject pat' s' opened g else None
      | [] => None
      end
  | Greedy p :: pat' => greedy p (fun s' => run subject pat' s' opened g) s
  | Lazy p :: pat' => lazy p (fun s' => run subject pat' s' opened g) s
  | GOpen :: pat' => run subject pat' s s g
  | GClose :: pat' =>
      run subject pat' s opened
          (Some (firstn (length opened - length s) opened))
  | Bol :: pat' =>
      if length s =? length subject
      then run subject pat' s opened g else None
  | Eol :: pat' =>
      match s with
      | [] => run subject pat' s opened g
      | [c] => if (c =? nl)%N then run subject pat' s opened g else None
      | _ => None
      end
  end.

(** [re.match(pat, s)]: a match at the start of [s]. *)
Definition re_match (pat : pattern) (s : str) : option result :=
  run s pat s s None.

(** [match.group(1)] *)
Definition group1 (r : result) : str :=
  match fst r with
  | Some g => g
  | None => []
  end.

(** The loop of [re.sub(pat, repl, subject)] from the position where [s]
    is left, for a pattern that matches no empty string: the leftmost
    match is replaced and the scan goes on behind it.  [repl r] is the
    expansion of the template at the match [r].  A scan of [subject]
    takes no more steps than [subject] has characters. *)
Fixpoint sub_from (fuel : nat) (pat : pattern) (repl : result -> str)
         (subject s : str) : str :=
  match fuel, s with
  | S fuel', c :: s' =>
      match run subject pat s s None with
      | Some r =>
          if length (snd r) <? length s
          then repl r ++ sub_from fuel' pat repl subject (snd r)
          else c :: sub_from fuel' pat repl subject s'
      | None => c :: sub_from fuel' pat repl subject s'
      end
  | _, _ => s
  end.

Definition re_sub (pat : pattern) (repl : result -> str) (subject : str)
  : str :=
  sub_from (length subject) pat repl subject subject.

End Re.

Import Re.

(* ================================================================== *)
(** * Section segmentation *)
(* ================================================================== *)

Module Ppt.

(** The dictionary with keys ['title'], ['content'] and ['level']. *)
Record section : Type := mk_section {
  sec_title : str;
  sec_content : str;
  sec_level : nat
}.

(** The three local variables of [parse_readme_content]. *)
Record parse_state : Type := mk_parse_state {
  sections : list section;
  current_section : option str;   (* [None] or the title of the open section *)
  current_content : list str
}.

(** Python's truth value of [current_section]: [None] and the empty
    string are both false. *)
Definition truthy (o : option str) : bool :=
  match o with
  | Some (_ :: _) => true
  | _ => false
  end.

(** [line.startswith('# ') or line.startswith('## ')] *)
Definition is_heading (line : str) : bool :=
  startswith (py "# ") line || startswith (py "## ") line.

(** [line.strip('#').strip()] *)
Definition heading_title (line : str) : str :=
  strip (strip_chars (py "#") line).

(** [if current_section: sections.append({...})] *)
Definition save_section (st : parse_state) : list section :=
  match current_section st with
  | Some t =>
      if truthy (Some t)
      then sections st ++
           [mk_section t (join [nl] (current_content st)) (count (ch "#") t)]
      else sections st
  | None => sections st
  end.

(** The body of the loop over the lines. *)
Definition parse_line (st : parse_state) (line : str) : parse_state :=
  if is_heading line then
    mk_parse_state (save_section st) (Some (heading_title line)) []
  else if truthy (current_section st) then
    mk_parse_state (sections st) (current_section st)
                   (current_content st ++ [line])
  else st.

Definition parse_start : parse_state := mk_parse_state [] None [].

Definition parse_readme_content (content : str) : list section :=
  save_section (fold_left parse_line (split nl content) parse_start).

(* ------------------------------------------------------------------ *)
(** ** Key points *)

(** The class [[-*...]] of the bullet pattern as the source file spells
    it: the hyphen, the asterisk and the three characters U+00E2, U+20AC
    and U+00A2. *)
Definition bullet_glyph (c : char) : bool :=
  existsb (N.eqb c) [ch "-"; ch "*"; 226; 8364; 162]%N.

(** [r'^[\s]*[-*...]\s*(.+)$'] *)
Definition bullet_pattern : pattern :=
  [Bol; Greedy is_space; One bullet_glyph; Greedy is_space;
   GOpen; One dot; Greedy dot; GClose; Eol].

(** [r'^[\s]*\d+\.\s*(.+)$'] *)
Definition numbered_pattern : pattern :=
  [Bol; Greedy is_space; One is_decimal; Greedy is_decimal; lit ".";
   Greedy is_space; GOpen; One dot; Greedy dot; GClose; Eol].

(** [r'\*\*(.*?)\*\*'], [r'\*(.*?)\*'], [r'`(.*?)`'] and
    [r'\[(.*?)\]\(.*?\)'] *)
Definition bold_pattern : pattern :=
  [lit "*"; lit "*"; GOpen; Lazy dot; GClose; lit "*"; lit "*"].
Definition italic_pattern : pattern :=
  [lit "*"; GOpen; Lazy dot; GClose; lit "*"].
Definition code_pattern : pattern :=
  [lit "`"; GOpen; Lazy dot; GClose; lit "`"].
Definition link_pattern : pattern :=
  [lit "["; GOpen; Lazy dot; GClose; lit "]"; lit "("; Lazy dot; lit ")"].

(** The four substitutions applied to a point, each with the template
    [r'\1']. *)
Definition clean_markdown (point : str) : str :=
  let point := re_sub bold_pattern group1 point in
  let point := re_sub italic_pattern group1 point in
  let point := re_sub code_pattern group1 point in
  re_sub link_pattern group1 point.

(** The body of either loop of [extract_key_points]. *)
Definition collect_point (pat : pattern) (points : list str) (line : str)
  : list str :=
  match re_match pat line with
  | Some m => points ++ [clean_markdown (strip (group1 m))]
  | None => points
  end.

(** The list [points] when both loops are done. *)
Definition gathered_points (content : str) : list str :=
  let points := [] in
  let points := fold_left (collect_point bullet_pattern)
                          (split nl content) points in
  fold_left (collect_point numbered_pattern) (split nl content) points.

Definition extract_key_points (content : str) : list str :=
  firstn 8 (gathered_points content).

(* ------------------------------------------------------------------ *)
(** ** Code blocks *)

Record code_block : Type := mk_code_block {
  language : str;
  code : str
}.

Record code_state : Type := mk_code_state {
  code_blocks : list code_block;
  in_code_block : bool;
  current_code : list str;
  current_language : str
}.

Definition backtick : char := ch "`".

(** [line.strip().startswith('```')] *)
Definition is_fence (line : str) : bool :=
  startswith [backtick; backtick; backtick] (strip line).

(** [line.strip('`').strip() or 'text'] *)
Definition fence_language (line : str) : str :=
  match strip (strip_chars [backtick] line) with
  | [] => py "text"
  | l => l
  end.

Definition code_line (st : code_state) (line : str) : code_state :=
  if is_fence line then
    if in_code_block st then
      mk_code_state
        (code_blocks st ++
           [mk_code_block (current_language st) (join [nl] (current_code st))])
        false [] (current_language st)
    else
      mk_code_state (code_blocks st) true (current_code st)
                    (fence_language line)
  else if in_code_block st then
    mk_code_state (code_blocks st) true (current_code st ++ [line])
                  (current_language st)
  else st.

Definition code_start : code_state := mk_code_state [] false [] [].

Definition extract_code_blocks (content : str) : list code_block :=
  code_blocks (fold_left code_line (split nl content) code_start).

(* ------------------------------------------------------------------ *)
(** ** The presentation and its slides *)

(** The table shape: [add_table(rows, cols, ...)] and the text of its
    cells. *)
Record table : Type := mk_table {
  n_rows : nat;
  n_cols : nat;
  cell_text : list (list str)
}.

Inductive body : Type :=
| Bullets (points : list str)   (* one paragraph per point *)
| Text (text : str).            (* one paragraph *)

(** What each constructor function leaves on the slide it adds. *)
Inductive slide : Type :=
| TitleSlide (title subtitle : str)          (* layout 0 *)
| ContentSlide (title : str) (content : body) (* layout 1 *)
| TableSlide (title : str) (grid : option table)
    (* layout 5: a title box and, when the table was added, the table *)
| CodeSlide (title : str) (text : str).       (* layout 5 *)

(** The presentation object: its slides in the order they were added. *)
Definition presentation : Type := list slide.

Definition create_title_slide (prs : presentation) (title subtitle : str)
  : presentation :=
  prs ++ [TitleSlide title subtitle].

Definition create_content_slide (prs : presentation) (title : str)
           (content : body) : presentation :=
  prs ++ [ContentSlide title content].

(** [line.split('|')[1:-1]] *)
Definition inner_fragments (line : str) : list str :=
  removelast (tl (split (ch "|") line)).

(** The loop of [create_table_slide] that fills [table_data]. *)
Definition table_line (table_data : list (list str)) (line : str)
  : list (list str) :=
  if has_char (ch "|") line && negb (startswith (py "|---") (strip line))
  then
    let row := map strip (inner_fragments line) in
    match row with
    | [] => table_data
    | _ :: _ => table_data ++ [row]
    end
  else table_data.

Definition parse_table (data : str) : list (list str) :=
  fold_left table_line (split nl data) [].

(** The cells of the table after the filling loop: the cells of a row
    beyond [cols] are not written, the cells a short row does not reach
    stay empty. *)
Definition fill_row (cols : nat) (row_data : list str) : list str :=
  firstn cols row_data ++ repeat [] (cols - length row_data).

Definition create_table_slide (prs : presentation) (title data : str)
  : presentation :=
  let table_data := parse_table data in
  prs ++
  [TableSlide title
     (if 1 <? length table_data then
        let cols := length (hd [] table_data) in
        Some (mk_table (length table_data) cols
                       (map (fill_row cols) table_data))
      else None)].

Definition create_code_slide (prs : presentation) (title : str)
           (cb : code_block) : presentation :=
  prs ++ [CodeSlide title (code cb)].

(* ------------------------------------------------------------------ *)
(** ** The conversion *)

Inductive message : Type :=
| NoSectionsFound    (* "No sections found in README.md" *)
| ErrorSaving.       (* "Error saving presentation: ..." *)

(** What a call of [generate_ppt_from_readme] leaves behind: the value it
    returns, the slides added to the presentation, the file written (its
    name and its slides) and the messages passed to [st.error]. *)
Record outcome : Type := mk_outcome {
  returned : option str;
  rendered : presentation;
  saved : option (str * presentation);
  errors : list message
}.

Definition default_title : str := py "Helix Tag Manager".
Definition default_subtitle : str :=
  py "A powerful Django application for migrating Adobe Helix V1 components to V2".

(** The argument of [replace] as the source file spells it: the four
    characters U+011F, U+0178, U+0161 and U+20AC. *)
Definition glyph : str := [287; 376; 353; 8364]%N.

Definition allow_list : list str :=
  [py "api endpoints"; py "core components"; py "project structure"].

(** [r'```.*?```'] with DOTALL, [r'\[.*?\]\(.*?\)'] and [r'[#*`]'] *)
Definition fenced_pattern : pattern :=
  [lit "`"; lit "`"; lit "`"; Lazy dot_all; lit "`"; lit "`"; lit "`"].
Definition bare_link_pattern : pattern :=
  [lit "["; Lazy dot; lit "]"; lit "("; Lazy dot; lit ")"].
Definition marker_pattern : pattern :=
  [One (fun c => existsb (N.eqb c) [ch "#"; ch "*"; backtick])].

Definition nothing (r : result) : str := [].

(** The text of the free-text slide. *)
Definition preview (content : str) : str :=
  let clean_content := re_sub fenced_pattern nothing content in
  let clean_content := re_sub bare_link_pattern nothing clean_content in
  let clean_content := re_sub marker_pattern nothing clean_content in
  let lines :=
    map strip (filter (fun line => negb (eqb (strip line) []))
                      (split nl clean_content)) in
  if 3 <? length lines
  then join (py " ") (firstn 3 lines) ++ py "..."
  else join (py " ") lines.

(** The texts that the constructor of a slide hands to the presentation
    library: the title, and the subtitle when it is not empty, the
    points or the text, the cells of the table, the code. *)
Definition slide_texts (sl : slide) : list str :=
  match sl with
  | TitleSlide title subtitle =>
      title :: match subtitle with
               | [] => []
               | _ :: _ => [subtitle]
               end
  | ContentSlide title (Bullets points) => title :: points
  | ContentSlide title (Text text) => [title; text]
  | TableSlide title None => [title]
  | TableSlide title (Some t) => title :: concat (cell_text t)
  | CodeSlide title text => [title; text]
  end.

(** How a call of [generate_ppt_from_readme] ends: it returns, or an
    exception of the presentation library leaves it.  The slide
    constructors are called outside the [try], which guards [prs.save]
    only. *)
Inductive run_result : Type :=
| Returned (o : outcome)
| Raised.

Section Conversion.

(** Python's [str.title]. *)
Variable str_title : str -> str.

(** The characters that the presentation library accepts in a text; a
    constructor that sets a text with another character raises. *)
Variable valid_char : char -> bool.

Definition slide_ok (sl : slide) : bool :=
  forallb (forallb valid_char) (slide_texts sl).

(** The body of the loop over the sections: the slides it adds when the
    library accepts their texts. *)
Definition process_section (prs : presentation) (sec : section)
  : presentation :=
  let title := sec_title sec in
  let content := sec_content sec in
  if length (strip content) <? 50 then prs
  else
    let key_points := extract_key_points content in
    let code_blocks := extract_code_blocks content in
    let has_table :=
      has_char (ch "|") content && contains (py "---") content in
    if existsb (eqb (lower title)) allow_list then
      if has_table then create_table_slide prs title content
      else create_content_slide prs title
             (Bullets (match key_points with
                       | [] => [py "Content details in documentation"]
                       | _ :: _ => key_points
                       end))
    else
      match code_blocks with
      | _ :: _ =>
          let prs :=
            fold_left
              (fun prs cb =>
                 create_code_slide prs
                   (title ++ py " - " ++ str_title (language cb) ++ py " Code")
                   cb)
              (firstn 2 code_blocks) prs in
          match key_points with
          | _ :: _ => create_content_slide prs title (Bullets key_points)
          | [] => prs
          end
      | [] =>
          match key_points with
          | _ :: _ => create_content_slide prs title (Bullets key_points)
          | [] => create_content_slide prs title (Text (preview content))
          end
      end.

(** One turn of the loop over the sections, with the exception: [None]
    stands for a conversion that has raised.  The turn raises when a
    slide it adds has a text that the library rejects; the presentation
    is then lost with the call. *)
Definition render_section (prs : option presentation) (sec : section)
  : option presentation :=
  match prs with
  | None => None
  | Some prs =>
      let prs' := process_section prs sec in
      if forallb slide_ok (skipn (length prs) prs') then Some prs' else None
  end.

(** [writable] tells for which file names [prs.save] succeeds. *)
Definition generate_ppt_from_readme (writable : str -> bool)
           (readme_content output_filename : str) : run_result :=
  let prs : presentation := [] in
  let sections := parse_readme_content readme_content in
  match sections with
  | [] => Returned (mk_outcome None prs None [NoSectionsFound])
  | first :: _ =>
      let project_title :=
        if truthy (Some (sec_title first))
        then strip (replace glyph [] (sec_title first))
        else default_title in
      let prs := create_title_slide prs project_title default_subtitle in
      if forallb slide_ok prs then
        match fold_left render_section sections (Some prs) with
        | Some prs =>
            if writable output_filename
            then Returned (mk_outcome (Some output_filename) prs
                                      (Some (output_filename, prs)) [])
            else Returned (mk_outcome None prs None [ErrorSaving])
        | None => Raised
        end
      else Raised
  end.

End Conversion.

End Ppt.

Import Ppt.

(** A presentation library that accepts every character, and a file
    system in which every file can be written. *)
Definition every_char (c : char) : bool := true.
Definition every_file (name : str) : bool := true.

Section Deck.

(** The two parameters of the conversion: [str.title] and the characters
    that the presentation library accepts. *)
Variable str_title : str -> str.
Variable valid_char : char -> bool.

(* ================================================================== *)
(** * Statements about the segmenter *)
(* ================================================================== *)

Definition lines_of (content : str) : list str := split nl content.

Definition body_line (line : str) : bool := negb (is_heading line).

(** The lines from the first heading line on. *)
Fixpoint from_first_heading (lines : list str) : list str :=
  match lines with
  | [] => []
  | l :: ls => if is_heading l then lines else from_first_heading ls
  end.

(** The bodies of [secs], read as lines and put one after the other, are
    exactly [lines]: each body is the join of a group of lines, and the
    groups in order make up [lines]. *)
Definition bodies_reconstruct (secs : list section) (lines : list str)
  : Prop :=
  exists groups : list (list str),
    map sec_content secs = map (join [nl]) groups /\ concat groups = lines.

(** Every heading line of the document has a title, that is
    [line.strip('#').strip()] is not empty. *)
Definition headings_titled (content : str) : bool :=
  forallb (fun l => negb (is_heading l) || negb (eqb (heading_title l) []))
          (lines_of content).

(** No line of the document is a heading line. *)
Definition no_heading (content : str) : bool :=
  negb (existsb is_heading (lines_of content)).


(* ------------------------------------------------------------------ *)
(** ** Statements about the key points *)

(** The point a line gives under a pattern, if the pattern matches it. *)
Definition point_of (pat : pattern) (line : str) : option str :=
  match re_match pat line with
  | Some m => Some (clean_markdown (strip (group1 m)))
  | None => None
  end.

(** The points of the lines that match [pat], in the order of the lines. *)
Fixpoint points_in_order (pat : pattern) (lines : list str) : list str :=
  match lines with
  | [] => []
  | l :: ls =>
      match point_of pat l with
      | Some p => p :: points_in_order pat ls
      | None => points_in_order pat ls
      end
  end.



(* ------------------------------------------------------------------ *)
(** ** Statements about the code blocks *)

(** A complete fence: the lines before it, its opening fence line, the
    lines between the fences and its closing fence line. *)
Record fenced : Type := mk_fenced {
  before : list str;
  opening : str;
  inside : list str;
  closing : str
}.

Definition fenced_lines (b : fenced) : list str :=
  before b ++ [opening b] ++ inside b ++ [closing b].

(** The lines of a body with the complete fences [blocks], followed by
    the lines [rest]. *)
Definition fenced_body (blocks : list fenced) (rest : list str) : list str :=
  concat (map fenced_lines blocks) ++ rest.

Definition plain (lines : list str) : bool :=
  forallb (fun l => negb (is_fence l)) lines.

Definition complete_fence (b : fenced) : bool :=
  plain (before b) && is_fence (opening b) &&
  plain (inside b) && is_fence (closing b).

(** [rest] holds no fence line, or a single one: an opening fence that is
    never closed. *)
Definition at_most_an_open_fence (rest : list str) : bool :=
  length (filter is_fence rest) <=? 1.

(** The code block a complete fence stands for. *)
Definition block_of (b : fenced) : code_block :=
  mk_code_block (fence_language (opening b)) (join [nl] (inside b)).


(* ------------------------------------------------------------------ *)
(** ** Statements about the slides *)

(** [title.lower() in [...]] and the test for a table of the loop over the
    sections. *)
Definition allow_listed (sec : section) : bool :=
  existsb (eqb (lower (sec_title sec))) allow_list.

Definition table_bearing (sec : section) : bool :=
  has_char (ch "|") (sec_content sec) &&
  contains (py "---") (sec_content sec).

Definition is_table_slide (sl : slide) : bool :=
  match sl with
  | TableSlide _ _ => true
  | _ => false
  end.

(** The slides that [process_section] adds to [prs] for [sec]. *)
Definition slides_added (prs : presentation) (sec : section)
  : presentation :=
  skipn (length prs) (process_section str_title prs sec).

(** Every section has a title that Python takes as true. *)
Definition titled (sec : section) : Prop :=
  truthy (Some (sec_title sec)) = true.


(* ------------------------------------------------------------------ *)
(** ** Statements about what a substitution leaves *)

(** [a] has no more of any character than [b] has. *)
Definition fewer (a b : str) : Prop :=
  forall c : char, count c a <= count c b.





(* ------------------------------------------------------------------ *)
(** ** Statements about tables *)

Definition pipe : char := ch "|".

(** A row of a table written in the compact way: a pipe, the cells with
    a pipe between them, a pipe. *)
Definition row_line (cells : list str) : str :=
  [pipe] ++ join [pipe] cells ++ [pipe].

(** The test of [create_table_slide] for the separator row. *)
Definition is_separator (line : str) : bool :=
  startswith (py "|---") (strip line).

(** A row that can be written on one line: it has a cell, and no cell
    holds a pipe or a newline. *)
Definition row_ok (cells : list str) : bool :=
  negb (length cells =? 0) &&
  forallb (fun c => negb (has_char pipe c) && negb (has_char nl c)) cells.


(* ------------------------------------------------------------------ *)
(** ** Statements about the titles and the bodies of the sections *)

(** The titles of the heading lines, those that are empty left out. *)
Definition section_titles (lines : list str) : list str :=
  filter (fun t => negb (eqb t []))
         (map heading_title (filter is_heading lines)).

(** [s] starts with no character of the class [p]. *)
Definition clean_head (p : char -> bool) (s : str) : Prop :=
  match s with
  | [] => True
  | c :: _ => p c = false
  end.

(** A text made of lines none of which is a heading line. *)
Definition plain_body (s : str) : Prop :=
  exists ls : list str,
    s = join [nl] ls /\
    Forall (fun l => is_heading l = false /\ count nl l = 0) ls.


(* ------------------------------------------------------------------ *)
(** ** Statements about every body with fences *)

(** A text made of lines none of which is a fence line. *)
Definition plain_code (s : str) : Prop :=
  exists ls : list str,
    s = join [nl] ls /\
    Forall (fun l => is_fence l = false /\ count nl l = 0) ls.

(** What the loop of [extract_code_blocks] keeps true of its state. *)
Definition code_state_ok (st : code_state) : Prop :=
  Forall (fun b => language b <> [] /\ plain_code (code b)) (code_blocks st) /\
  Forall (fun l => is_fence l = false /\ count nl l = 0) (current_code st) /\
  (in_code_block st = true -> current_language st <> []).

(** Twice the blocks closed, and one more for a block that is open. *)
Definition fences_read (st : code_state) : nat :=
  2 * length (code_blocks st) + (if in_code_block st then 1 else 0).


(* ------------------------------------------------------------------ *)
(** ** Statements about blank bullets *)

(** White space that is not the newline. *)
Definition blank (c : char) : bool := is_space c && negb (c =? nl)%N.


(* ------------------------------------------------------------------ *)
(** ** Statements about every table *)

(** A cell as the row parser leaves it: trimmed, on one line, without a
    pipe. *)
Definition cell_ok (cell : str) : Prop :=
  strip cell = cell /\ count pipe cell = 0 /\ count nl cell = 0.

Definition row_kept (row : list str) : Prop :=
  row <> [] /\ Forall cell_ok row.


(* ------------------------------------------------------------------ *)
(** ** Statements about the slides of a section *)

(** The slides made for one section, on their own. *)
Definition section_slides (sec : section) : presentation :=
  process_section str_title [] sec.

Definition is_code_slide (sl : slide) : bool :=
  match sl with
  | CodeSlide _ _ => true
  | _ => false
  end.

Definition is_text_slide (sl : slide) : bool :=
  match sl with
  | ContentSlide _ (Text _) => true
  | _ => false
  end.


(** The code shown on a code slide. *)
Definition slide_code (sl : slide) : list str :=
  match sl with
  | CodeSlide _ text => [text]
  | _ => []
  end.

(* ------------------------------------------------------------------ *)
(** ** Statements about a whole conversion *)

(** The rocket emoji, U+1F680. *)
Definition rocket : char := 128640%N.

(** The title holds no rocket, neither the character itself nor the four
    characters with which the source file spells it. *)
Definition glyph_free (title : str) : bool :=
  negb (contains glyph title) && negb (has_char rocket title).

(** The slides that the sections of a document give, in order. *)
Definition planned_slides (content : str) : presentation :=
  flat_map section_slides (parse_readme_content content).

(* ------------------------------------------------------------------ *)
(** ** Statements about links *)









(* ================================================================== *)
(** * Proofs: strings *)
(* ================================================================== *)

Lemma eqb_eq (a b : str) : eqb a b = true <-> a = b.
Proof.
  unfold eqb. destruct (list_eq_dec N.eq_dec a b); split; congruence.
Qed.

Lemma eqb_neq (a b : str) : eqb a b = false <-> a <> b.
Proof.
  unfold eqb. destruct (list_eq_dec N.eq_dec a b); split; congruence.
Qed.

(* ================================================================== *)
(** * Proofs: the segmenter *)
(* ================================================================== *)

Lemma truthy_title (t : str) : t <> [] -> truthy (Some t) = true.
Proof. destruct t; [congruence | reflexivity]. Qed.

Lemma save_section_open (st : parse_state) (t : str) :
  current_section st = Some t -> truthy (Some t) = true ->
  save_section st =
  sections st ++
  [mk_section t (join [nl] (current_content st)) (count (ch "#") t)].
Proof.
  intros Hc Ht. unfold save_section. rewrite Hc, Ht. reflexivity.
Qed.

(** The loop invariant once a section is open: the sections saved so far
    and the lines gathered for the open one account for the body lines
    read, in order. *)
Lemma parse_open_section :
  forall (lines : list str) (st : parse_state) (groups : list (list str)),
    (forall l, In l lines -> is_heading l = true -> heading_title l <> []) ->
    truthy (current_section st) = true ->
    map sec_content (sections st) = map (join [nl]) groups ->
    bodies_reconstruct
      (save_section (fold_left parse_line lines st))
      (concat groups ++ current_content st ++ filter body_line lines).
Proof.
  induction lines as [|l ls IH]; intros st groups Hts Hopen Hsec.
  - simpl. destruct (current_section st) as [t|] eqn:Hc; [|discriminate].
    exists (groups ++ [current_content st]). split.
    + rewrite (save_section_open st t Hc Hopen).
      rewrite !map_app, Hsec. reflexivity.
    + rewrite concat_app. simpl. now rewrite !app_nil_r.
  - simpl fold_left. unfold parse_line at 2. unfold body_line at 1. simpl filter.
    destruct (is_heading l) eqn:Hl; simpl negb; cbv iota.
    + destruct (current_section st) as [t|] eqn:Hc; [|discriminate].
      assert (Hnew : heading_title l <> []) by (apply Hts; [now left | assumption]).
      destruct (IH (mk_parse_state (save_section st) (Some (heading_title l)) [])
                   (groups ++ [current_content st])) as [gs [H1 H2]].
      * intros l' Hin. apply Hts. now right.
      * simpl. now apply truthy_title.
      * simpl. rewrite (save_section_open st t Hc Hopen).
        rewrite !map_app, Hsec. reflexivity.
      * exists gs. split; [exact H1|].
        rewrite H2, concat_app. simpl. now rewrite !app_nil_r, <- app_assoc.
    + rewrite Hopen.
      destruct (IH (mk_parse_state (sections st) (current_section st)
                                   (current_content st ++ [l])) groups)
        as [gs [H1 H2]].
      * intros l' Hin. apply Hts. now right.
      * exact Hopen.
      * exact Hsec.
      * exists gs. split; [exact H1|].
        rewrite H2. simpl. now rewrite <- !app_assoc.
Qed.

(** Before the first heading line nothing is kept. *)
Lemma parse_preamble :
  forall lines : list str,
    (forall l, In l lines -> is_heading l = true -> heading_title l <> []) ->
    bodies_reconstruct
      (save_section (fold_left parse_line lines parse_start))
      (filter body_line (from_first_heading lines)).
Proof.
  induction lines as [|l ls IH]; intros Hts.
  - exists []. split; reflexivity.
  - simpl fold_left. simpl from_first_heading. unfold parse_line at 2.
    destruct (is_heading l) eqn:Hl.
    + assert (Hnew : heading_title l <> []) by (apply Hts; [now left | assumption]).
      simpl filter. unfold body_line at 1. rewrite Hl. simpl negb. cbv iota.
      apply (parse_open_section ls
               (mk_parse_state (save_section parse_start)
                               (Some (heading_title l)) []) []).
      * intros l' Hin. apply Hts. now right.
      * simpl. now apply truthy_title.
      * reflexivity.
    + simpl truthy. cbv iota. apply IH. intros l' Hin. apply Hts. now right.
Qed.

Lemma parse_without_heading :
  forall lines : list str,
    existsb is_heading lines = false ->
    fold_left parse_line lines parse_start = parse_start.
Proof.
  induction lines as [|l ls IH]; intros H; [reflexivity|].
  simpl in H. apply orb_false_iff in H. destruct H as [Hl Hls].
  simpl. unfold parse_line at 2. rewrite Hl. simpl. now apply IH.
Qed.

(** C1 (as amended).  When every heading line of the document has a
    title, the bodies of the sections returned by [parse_readme_content],
    read as lines and put one after the other in order, are exactly the
    lines that are not heading lines and come after the first heading
    line: none of these is dropped, none is repeated.  The lines before
    the first heading line belong to no section. *)
Theorem bodies_cover_lines_after_first_heading :
  forall content : str,
    headings_titled content = true ->
    bodies_reconstruct
      (parse_readme_content content)
      (filter body_line (from_first_heading (lines_of content))).
Proof.
  intros content H. unfold parse_readme_content. apply parse_preamble.
  intros l Hin Hl. unfold headings_titled in H.
  rewrite forallb_forall in H. specialize (H l Hin).
  rewrite Hl in H. simpl in H. apply negb_true_iff in H.
  now apply eqb_neq.
Qed.

Lemma bodies_cover_lines_after_first_heading_witness :
  bodies_reconstruct
    (parse_readme_content (py "intro\n# A\nbody\n\n## B\n### c\n# D"))
    (filter body_line
       (from_first_heading
          (lines_of (py "intro\n# A\nbody\n\n## B\n### c\n# D")))).
Proof.
  apply (bodies_cover_lines_after_first_heading
           (py "intro\n# A\nbody\n\n## B\n### c\n# D")).
  vm_compute. reflexivity.
Defined.

(** C1 (as stated) fails: the document has a heading line, and its line
    [intro], which is not a heading line, is in no section body. *)
Lemma preamble_line_is_dropped :
  existsb is_heading (lines_of (py "intro\n# A\nbody")) = true /\
  ~ bodies_reconstruct
      (parse_readme_content (py "intro\n# A\nbody"))
      (filter body_line (lines_of (py "intro\n# A\nbody"))).
Proof.
  split; [reflexivity|].
  intros [groups [Hmap Hcat]].
  destruct groups as [|g [|g' gs]]; try discriminate Hmap.
  unfold concat in Hcat. rewrite app_nil_r in Hcat. subst g.
  vm_compute in Hmap. discriminate Hmap.
Qed.

(** C7 fails on the code: the level stored with a section is the number
    of [#] characters of its title, from which the marker has already been
    stripped, so a first-level and a second-level heading both open a
    section of level 0. *)
Theorem level_counts_hashes_of_the_title :
  parse_readme_content (py "# Demo") = [mk_section (py "Demo") [] 0] /\
  parse_readme_content (py "## Demo") = [mk_section (py "Demo") [] 0].
Proof. split; reflexivity. Qed.

(** C8.  For a document without any heading line the conversion fails:
    [generate_ppt_from_readme] returns no path, adds no slide to the
    presentation and writes no file; it reports that no section was
    found. *)
Theorem no_heading_is_a_hard_failure :
  forall (writable : str -> bool) (readme_content output_filename : str),
    no_heading readme_content = true ->
    generate_ppt_from_readme str_title valid_char writable readme_content
                             output_filename =
    Returned (mk_outcome None [] None [NoSectionsFound]).
Proof.
  intros writable content out H.
  unfold no_heading in H. apply negb_true_iff in H.
  unfold generate_ppt_from_readme, parse_readme_content.
  fold (lines_of content). rewrite (parse_without_heading _ H).
  reflexivity.
Qed.

(* ================================================================== *)
(** * Proofs: the matcher *)
(* ================================================================== *)

Lemma greedy_stops (p : char -> bool) (k : str -> option result)
      (c : char) (s : str) :
  p c = false -> greedy p k (c :: s) = k (c :: s).
Proof. intros H. simpl. now rewrite H. Qed.




(* ================================================================== *)
(** * Proofs: strings without the characters looked for *)
(* ================================================================== *)

Lemma split_no_sep (sep : char) (s : str) :
  Forall (fun c => (c =? sep)%N = false) s -> split sep s = [s].
Proof.
  induction 1 as [|c s Hc Hs IH]; [reflexivity|].
  simpl. now rewrite Hc, IH.
Qed.





(* ================================================================== *)
(** * Proofs: the key points *)
(* ================================================================== *)

Lemma collect_point_spec (pat : pattern) (points : list str) (line : str) :
  collect_point pat points line =
  points ++ match point_of pat line with Some p => [p] | None => [] end.
Proof.
  unfold collect_point, point_of.
  destruct (re_match pat line); [reflexivity | now rewrite app_nil_r].
Qed.

Lemma fold_collect_point (pat : pattern) :
  forall (lines : list str) (points : list str),
    fold_left (collect_point pat) lines points =
    points ++ points_in_order pat lines.
Proof.
  induction lines as [|l ls IH]; intros points; simpl.
  - now rewrite app_nil_r.
  - rewrite IH, collect_point_spec. rewrite <- app_assoc.
    now destruct (point_of pat l).
Qed.

Lemma bullets_in_line_then_numbers (content : str) :
  gathered_points content =
  points_in_order bullet_pattern (lines_of content) ++
  points_in_order numbered_pattern (lines_of content) /\
  extract_key_points content =
  firstn 8 (points_in_order bullet_pattern (lines_of content) ++
            points_in_order numbered_pattern (lines_of content)).
Proof.
  assert (H : gathered_points content =
              points_in_order bullet_pattern (lines_of content) ++
              points_in_order numbered_pattern (lines_of content)).
  { unfold gathered_points, lines_of. now rewrite !fold_collect_point. }
  split; [exact H|]. unfold extract_key_points. now rewrite H.
Qed.

(** C9.  The list of key points, before it is cut to 8, is made of the
    points of all lines that match the bullet pattern, in source order,
    followed by the points of all lines that match the numbered pattern,
    in source order; [extract_key_points] returns its first 8 elements.
    The two styles are not interleaved by source position: a numbered
    line that stands before a bullet line gives the later point. *)
Theorem bullets_come_before_numbers :
  (forall content : str,
      gathered_points content =
      points_in_order bullet_pattern (lines_of content) ++
      points_in_order numbered_pattern (lines_of content) /\
      extract_key_points content =
      firstn 8 (points_in_order bullet_pattern (lines_of content) ++
                points_in_order numbered_pattern (lines_of content))) /\
  extract_key_points (py "1. first\n- second") = [py "second"; py "first"].
Proof.
  split; [exact bullets_in_line_then_numbers | reflexivity].
Qed.










(* ================================================================== *)
(** * Proofs: the code blocks *)
(* ================================================================== *)

Lemma code_lines_outside :
  forall (lines : list str) (st : code_state),
    in_code_block st = false -> plain lines = true ->
    fold_left code_line lines st = st.
Proof.
  induction lines as [|l ls IH]; intros st Hout Hp; [reflexivity|].
  simpl in Hp. apply andb_true_iff in Hp. destruct Hp as [Hl Hls].
  apply negb_true_iff in Hl.
  simpl. unfold code_line at 2. rewrite Hl, Hout. now apply IH.
Qed.

Lemma code_lines_inside :
  forall (lines : list str) (st : code_state),
    in_code_block st = true -> plain lines = true ->
    fold_left code_line lines st =
    mk_code_state (code_blocks st) true (current_code st ++ lines)
                  (current_language st).
Proof.
  induction lines as [|l ls IH]; intros st Hin Hp.
  - simpl. rewrite app_nil_r. destruct st; simpl in *. now subst.
  - simpl in Hp. apply andb_true_iff in Hp. destruct Hp as [Hl Hls].
    apply negb_true_iff in Hl.
    simpl. unfold code_line at 2. rewrite Hl, Hin.
    rewrite IH by (try reflexivity; assumption).
    simpl. now rewrite <- app_assoc.
Qed.

(** One complete fence, read from a state outside any block, adds its
    block and leaves the state outside any block. *)
Lemma code_lines_fence (b : fenced) (st : code_state) :
  in_code_block st = false -> current_code st = [] ->
  complete_fence b = true ->
  fold_left code_line (fenced_lines b) st =
  mk_code_state (code_blocks st ++ [block_of b]) false []
                (fence_language (opening b)).
Proof.
  intros Hout Hempty Hb. unfold complete_fence in Hb.
  repeat (apply andb_true_iff in Hb; destruct Hb as [Hb ?]).
  unfold fenced_lines. rewrite !fold_left_app.
  rewrite (code_lines_outside (before b) st) by assumption.
  cbn [fold_left]. unfold code_line at 3.
  match goal with H : is_fence (opening b) = true |- _ => rewrite H end.
  rewrite Hout, Hempty.
  rewrite code_lines_inside by (try reflexivity; assumption).
  cbn [code_blocks current_code current_language app].
  unfold code_line.
  match goal with H : is_fence (closing b) = true |- _ => rewrite H end.
  reflexivity.
Qed.

Lemma code_lines_fences :
  forall (blocks : list fenced) (st : code_state),
    in_code_block st = false -> current_code st = [] ->
    forallb complete_fence blocks = true ->
    exists lang,
      fold_left code_line (concat (map fenced_lines blocks)) st =
      mk_code_state (code_blocks st ++ map block_of blocks) false [] lang.
Proof.
  induction blocks as [|b bs IH]; intros st Hout Hempty Hbs.
  - exists (current_language st). simpl. rewrite app_nil_r.
    destruct st; simpl in *. now subst.
  - simpl in Hbs. apply andb_true_iff in Hbs. destruct Hbs as [Hb Hbs].
    cbn [map concat]. rewrite fold_left_app.
    rewrite (code_lines_fence b st Hout Hempty Hb).
    destruct (IH (mk_code_state (code_blocks st ++ [block_of b]) false []
                                (fence_language (opening b))))
      as [lang Hlang]; try reflexivity; try assumption.
    exists lang. rewrite Hlang. cbn [code_blocks].
    now rewrite <- app_assoc.
Qed.

(** A fence that is opened and never closed adds no block. *)
Lemma code_lines_open_fence :
  forall (rest : list str) (st : code_state),
    in_code_block st = false ->
    at_most_an_open_fence rest = true ->
    code_blocks (fold_left code_line rest st) = code_blocks st.
Proof.
  unfold at_most_an_open_fence.
  induction rest as [|l ls IH]; intros st Hout Hrest; [reflexivity|].
  simpl in Hrest. simpl. unfold code_line at 2.
  destruct (is_fence l) eqn:Hl.
  - rewrite Hout. rewrite code_lines_inside; [reflexivity | reflexivity |].
    simpl in Hrest. apply Nat.leb_le in Hrest.
    assert (Hnone : filter is_fence ls = [])
      by (destruct (filter is_fence ls); [reflexivity | simpl in Hrest; lia]).
    unfold plain. apply forallb_forall. intros x Hx.
    destruct (is_fence x) eqn:Hfx; [|reflexivity].
    assert (Hin : In x (filter is_fence ls)) by (apply filter_In; now split).
    rewrite Hnone in Hin. destruct Hin.
  - rewrite Hout. now apply IH.
Qed.

(** C3.  When the lines of the body are [N] complete fences (each with
    lines before it, an opening fence line, lines between the fences and
    a closing fence line) followed by lines with at most one more fence
    line, [extract_code_blocks] returns exactly [N] code blocks, in
    order; the code of each is the lines between its fences joined by
    newlines, blank lines and white space included; a last opening fence
    that is never closed adds no block. *)
Theorem complete_fences_give_the_blocks :
  forall (content : str) (blocks : list fenced) (rest : list str),
    lines_of content = fenced_body blocks rest ->
    forallb complete_fence blocks = true ->
    at_most_an_open_fence rest = true ->
    extract_code_blocks content = map block_of blocks /\
    length (extract_code_blocks content) = length blocks /\
    map code (extract_code_blocks content) =
    map (fun b => join [nl] (inside b)) blocks.
Proof.
  intros content blocks rest Hlines Hblocks Hrest.
  assert (H : extract_code_blocks content = map block_of blocks).
  { unfold extract_code_blocks. fold (lines_of content). rewrite Hlines.
    unfold fenced_body. rewrite fold_left_app.
    destruct (code_lines_fences blocks code_start) as [lang Hlang];
      try reflexivity; try assumption.
    rewrite Hlang. rewrite code_lines_open_fence by (try reflexivity; assumption).
    reflexivity. }
  rewrite H. split; [reflexivity|]. split.
  - apply length_map.
  - rewrite map_map. reflexivity.
Qed.

Lemma complete_fences_give_the_blocks_witness :
  extract_code_blocks
    (py "text\n```python\nx = 1\n\n  y = 2  \n```\nmore\n```\nz\n```\nend\n```sh\nls") =
  map block_of
    [mk_fenced [py "text"] (py "```python") [py "x = 1"; []; py "  y = 2  "]
               (py "```");
     mk_fenced [py "more"] (py "```") [py "z"] (py "```")] /\
  length (extract_code_blocks
    (py "text\n```python\nx = 1\n\n  y = 2  \n```\nmore\n```\nz\n```\nend\n```sh\nls")) =
  2 /\
  map code (extract_code_blocks
    (py "text\n```python\nx = 1\n\n  y = 2  \n```\nmore\n```\nz\n```\nend\n```sh\nls")) =
  map (fun b => join [nl] (inside b))
    [mk_fenced [py "text"] (py "```python") [py "x = 1"; []; py "  y = 2  "]
               (py "```");
     mk_fenced [py "more"] (py "```") [py "z"] (py "```")].
Proof.
  apply (complete_fences_give_the_blocks
           (py "text\n```python\nx = 1\n\n  y = 2  \n```\nmore\n```\nz\n```\nend\n```sh\nls")
           [mk_fenced [py "text"] (py "```python")
                      [py "x = 1"; []; py "  y = 2  "] (py "```");
            mk_fenced [py "more"] (py "```") [py "z"] (py "```")]
           [py "end"; py "```sh"; py "ls"]).
  - vm_compute. reflexivity.
  - vm_compute. reflexivity.
  - vm_compute. reflexivity.
Defined.

(* ================================================================== *)
(** * Proofs: tables and slides *)
(* ================================================================== *)

(** C4 fails on the code.  The table has two header cells and one data
    row; its separator row is written with blanks around the dashes, as
    is usual.  The test for the separator row looks for a line that
    starts with a pipe and three hyphens, so this separator row is kept
    as a row of the table: three rows are returned where the claim has
    two, and the row of dashes is among them. *)
Theorem spaced_separator_row_is_kept :
  parse_table (py "| a | b |\n| --- | --- |\n| 1 | 2 |") =
  [[py "a"; py "b"]; [py "---"; py "---"]; [py "1"; py "2"]].
Proof. reflexivity. Qed.

(** The same table with the separator row written without blanks. *)
Example compact_separator_row_is_dropped :
  parse_table (py "| a | b |\n|---|---|\n| 1 | 2 |") =
  [[py "a"; py "b"]; [py "1"; py "2"]].
Proof. reflexivity. Qed.

Lemma fold_code_slides (title_of : code_block -> str) :
  forall (blocks : list code_block) (prs : presentation),
    fold_left (fun prs cb => create_code_slide prs (title_of cb) cb)
              blocks prs =
    prs ++ map (fun cb => CodeSlide (title_of cb) (code cb)) blocks.
Proof.
  induction blocks as [|cb cbs IH]; intros prs; simpl.
  - now rewrite app_nil_r.
  - rewrite IH. unfold create_code_slide. now rewrite <- app_assoc.
Qed.

(** [process_section] only ever appends to the presentation. *)
Lemma process_section_appends (prs : presentation) (sec : section) :
  exists added, process_section str_title prs sec = prs ++ added.
Proof.
  unfold process_section.
  destruct (length (strip (sec_content sec)) <? 50).
  { exists []. now rewrite app_nil_r. }
  destruct (existsb _ allow_list).
  { destruct (_ && _); eexists; reflexivity. }
  destruct (extract_code_blocks (sec_content sec)) as [|cb cbs].
  { destruct (extract_key_points (sec_content sec)); eexists; reflexivity. }
  rewrite fold_code_slides.
  destruct (extract_key_points (sec_content sec)).
  - eexists; reflexivity.
  - unfold create_content_slide. rewrite <- app_assoc. eexists; reflexivity.
Qed.

Lemma fold_process_section_appends :
  forall (secs : list section) (prs : presentation),
    exists added, fold_left (process_section str_title) secs prs = prs ++ added.
Proof.
  induction secs as [|sec secs IH]; intros prs; simpl.
  - exists []. now rewrite app_nil_r.
  - destruct (process_section_appends prs sec) as [a1 ->].
    destruct (IH (prs ++ a1)) as [a2 ->].
    exists (a1 ++ a2). now rewrite app_assoc.
Qed.

(** The route of an allow-listed, table-bearing section through
    [process_section]. *)
Lemma process_table_section (prs : presentation) (sec : section) :
  allow_listed sec = true -> table_bearing sec = true ->
  process_section str_title prs sec =
  if length (strip (sec_content sec)) <? 50 then prs
  else create_table_slide prs (sec_title sec) (sec_content sec).
Proof.
  unfold allow_listed, table_bearing, process_section.
  intros -> ->. reflexivity.
Qed.

(** C5 (as amended).  For an allow-listed, table-bearing section whose
    parsed table keeps fewer than two rows, the conversion does not fall
    back to another slide type: unless the section is skipped for its
    short body (fewer than 50 characters once trimmed), exactly one slide
    is appended, the one that [create_table_slide] adds before it reads
    the table, and it carries the title of the section and no table. *)
Theorem short_table_leaves_a_slide_without_table :
  forall (prs : presentation) (sec : section),
    allow_listed sec = true ->
    table_bearing sec = true ->
    length (parse_table (sec_content sec)) < 2 ->
    process_section str_title prs sec =
    if length (strip (sec_content sec)) <? 50 then prs
    else prs ++ [TableSlide (sec_title sec) None].
Proof.
  intros prs sec Hallow Htable Hrows.
  rewrite process_table_section by assumption.
  destruct (length (strip (sec_content sec)) <? 50); [reflexivity|].
  unfold create_table_slide.
  replace (1 <? length (parse_table (sec_content sec))) with false;
    [reflexivity|].
  symmetry. apply Nat.ltb_ge. lia.
Qed.

(* ================================================================== *)
(** * Proofs: the title slide *)
(* ================================================================== *)

Lemma save_section_titled (st : parse_state) :
  Forall titled (sections st) -> Forall titled (save_section st).
Proof.
  intros H. unfold save_section.
  destruct (current_section st) as [t|]; [|exact H].
  destruct (truthy (Some t)) eqn:Ht; [|exact H].
  apply Forall_app. split; [exact H|].
  constructor; [exact Ht | constructor].
Qed.

Lemma parse_line_titled (st : parse_state) (line : str) :
  Forall titled (sections st) -> Forall titled (sections (parse_line st line)).
Proof.
  intros H. unfold parse_line.
  destruct (is_heading line); [now apply save_section_titled|].
  now destruct (truthy (current_section st)).
Qed.

Lemma parse_lines_titled :
  forall (lines : list str) (st : parse_state),
    Forall titled (sections st) ->
    Forall titled (sections (fold_left parse_line lines st)).
Proof.
  induction lines as [|l ls IH]; intros st H; [exact H|].
  simpl. apply IH. now apply parse_line_titled.
Qed.

(** Every section that the segmenter returns has a non-empty title. *)
Lemma parse_readme_content_titled (content : str) :
  Forall titled (parse_readme_content content).
Proof.
  unfold parse_readme_content. apply save_section_titled.
  apply parse_lines_titled. constructor.
Qed.

(* ================================================================== *)
(** * Proofs: counting characters *)
(* ================================================================== *)

Lemma count_app (c : char) (a b : str) :
  count c (a ++ b) = count c a + count c b.
Proof. induction a as [|d a IH]; simpl; [reflexivity | rewrite IH; lia]. Qed.

Lemma count_rev (c : char) (a : str) : count c (rev a) = count c a.
Proof.
  induction a as [|d a IH]; simpl; [reflexivity|].
  rewrite count_app, IH. simpl. lia.
Qed.

Lemma count_zero_Forall (c : char) (s : str) :
  count c s = 0 <-> Forall (fun d => (d =? c)%N = false) s.
Proof.
  induction s as [|d s IH]; simpl.
  - split; [constructor | reflexivity].
  - destruct (d =? c)%N eqn:Hd; split; intros H.
    + discriminate.
    + inversion H; congruence.
    + constructor; [exact Hd | now apply IH].
    + inversion H; subst. now apply IH.
Qed.

Lemma fewer_refl (a : str) : fewer a a.
Proof. intros c. lia. Qed.

Lemma fewer_trans (a b c : str) : fewer a b -> fewer b c -> fewer a c.
Proof. intros H1 H2 d. specialize (H1 d). specialize (H2 d). lia. Qed.

Lemma fewer_app (a a' b b' : str) :
  fewer a a' -> fewer b b' -> fewer (a ++ b) (a' ++ b').
Proof.
  intros H1 H2 d. rewrite !count_app.
  specialize (H1 d). specialize (H2 d). lia.
Qed.

Lemma fewer_suffix (u a : str) : fewer a (u ++ a).
Proof. intros d. rewrite count_app. lia. Qed.

Lemma fewer_cons (c : char) (a b : str) :
  fewer a b -> fewer (c :: a) (c :: b).
Proof. intros H d. simpl. specialize (H d). lia. Qed.

Lemma fewer_count_zero (c : char) (a b : str) :
  fewer a b -> count c b = 0 -> count c a = 0.
Proof. intros H Hb. specialize (H c). lia. Qed.

Lemma lstrip_suffix (p : char -> bool) (s : str) :
  exists u, s = u ++ lstrip p s.
Proof.
  induction s as [|c s [u Hu]]; [now exists []|].
  simpl. destruct (p c).
  - exists (c :: u). simpl. now rewrite <- Hu.
  - now exists [].
Qed.

Lemma fewer_lstrip (p : char -> bool) (s : str) : fewer (lstrip p s) s.
Proof.
  destruct (lstrip_suffix p s) as [u Hu].
  rewrite Hu at 2. apply fewer_suffix.
Qed.

Lemma fewer_strip_with (p : char -> bool) (s : str) :
  fewer (strip_with p s) s.
Proof.
  unfold strip_with, rstrip.
  apply fewer_trans with (lstrip p s); [|apply fewer_lstrip].
  intros d. rewrite count_rev.
  pose proof (fewer_lstrip p (rev (lstrip p s)) d) as H.
  now rewrite count_rev in H.
Qed.

(** No line of [s.split(sep)] holds the separator. *)
Lemma split_lines_free (sep : char) (s : str) :
  Forall (fun l => count sep l = 0) (split sep s).
Proof.
  induction s as [|c s IH]; simpl.
  - repeat constructor.
  - destruct (c =? sep)%N eqn:Hc.
    + constructor; [reflexivity | exact IH].
    + destruct (split sep s) as [|l ls].
      * repeat constructor. simpl. now rewrite Hc.
      * inversion IH; subst. constructor; [|assumption].
        simpl. now rewrite Hc.
Qed.

Lemma in_firstn (A : Type) (n : nat) (l : list A) (x : A) :
  In x (firstn n l) -> In x l.
Proof.
  intros H. rewrite <- (firstn_skipn n l). apply in_or_app. now left.
Qed.

Lemma firstn_length_app (a b : str) : firstn (length a) (a ++ b) = a.
Proof. induction a as [|c a IH]; simpl; [reflexivity | now rewrite IH]. Qed.

(* ================================================================== *)
(** * Proofs: what a match holds *)
(* ================================================================== *)

Lemma greedy_inv (p : char -> bool) (k : str -> option result) (r : result) :
  forall s : str,
    greedy p k s = Some r -> exists u s', s = u ++ s' /\ k s' = Some r.
Proof.
  induction s as [|c s IH]; simpl; intros H.
  - now exists [], [].
  - destruct (p c).
    + destruct (greedy p k s) as [r'|] eqn:Hg.
      * destruct (IH H) as [u [s' [Hs Hk]]].
        exists (c :: u), s'. split; [now rewrite Hs | exact Hk].
      * now exists [], (c :: s).
    + now exists [], (c :: s).
Qed.

Lemma lazy_inv (p : char -> bool) (k : str -> option result) (r : result) :
  forall s : str,
    lazy p k s = Some r -> exists u s', s = u ++ s' /\ k s' = Some r.
Proof.
  induction s as [|c s IH]; simpl; intros H.
  - destruct (k []) eqn:Hk; [|discriminate].
    inversion H; subst. now exists [], [].
  - destruct (k (c :: s)) eqn:Hk.
    + inversion H; subst. now exists [], (c :: s).
    + destruct (p c); [|discriminate].
      destruct (IH H) as [u [s' [Hs Hk']]].
      exists (c :: u), s'. split; [now rewrite Hs | exact Hk'].
Qed.

(** A match ends inside the text it started in, and the group it holds,
    followed by the text left, has no more of any character than the
    text in which the group was opened. *)
Lemma run_inv (subject : str) :
  forall (pat : pattern) (s opened : str) (g : option str) (r : result),
    (exists w, opened = w ++ s) ->
    run subject pat s opened g = Some r ->
    (exists u, s = u ++ snd r) /\
    (fst r = g \/ exists x, fst r = Some x /\ fewer (x ++ snd r) opened).
Proof.
  induction pat as [|it pat IH]; intros s opened g r [w Hw] Hrun.
  - simpl in Hrun. inversion Hrun; subst. simpl.
    split; [now exists [] | now left].
  - destruct it; simpl in Hrun.
    + (* One *)
      destruct s as [|c s]; [discriminate|].
      destruct (p c); [|discriminate].
      destruct (IH s opened g r) as [[u Hu] Hg]; [|exact Hrun|].
      * exists (w ++ [c]). rewrite Hw, <- app_assoc. reflexivity.
      * split; [|exact Hg]. exists (c :: u). simpl. now rewrite <- Hu.
    + (* Greedy *)
      destruct (greedy_inv _ _ _ _ Hrun) as [u0 [s0 [Hs Hk]]].
      destruct (IH s0 opened g r) as [[u Hu] Hg]; [|exact Hk|].
      * exists (w ++ u0). rewrite Hw, Hs, app_assoc. reflexivity.
      * split; [|exact Hg]. exists (u0 ++ u).
        rewrite Hs, Hu at 1. now rewrite app_assoc.
    + (* Lazy *)
      destruct (lazy_inv _ _ _ _ Hrun) as [u0 [s0 [Hs Hk]]].
      destruct (IH s0 opened g r) as [[u Hu] Hg]; [|exact Hk|].
      * exists (w ++ u0). rewrite Hw, Hs, app_assoc. reflexivity.
      * split; [|exact Hg]. exists (u0 ++ u).
        rewrite Hs, Hu at 1. now rewrite app_assoc.
    + (* GOpen *)
      destruct (IH s s g r) as [Hu Hg]; [now exists [] | exact Hrun |].
      split; [exact Hu|].
      destruct Hg as [Hg | [x [Hx Hf]]]; [now left | right].
      exists x. split; [exact Hx|].
      apply fewer_trans with s; [exact Hf|]. rewrite Hw. apply fewer_suffix.
    + (* GClose *)
      assert (Hcap : firstn (length opened - length s) opened = w).
      { rewrite Hw, length_app.
        replace (length w + length s - length s) with (length w) by lia.
        apply firstn_length_app. }
      rewrite Hcap in Hrun.
      destruct (IH s opened (Some w) r) as [[u Hu] Hg];
        [now exists w | exact Hrun |].
      split; [now exists u|].
      right. destruct Hg as [Hg | Hg]; [|exact Hg].
      exists w. split; [exact Hg|].
      rewrite Hw. apply fewer_app; [apply fewer_refl|].
      rewrite Hu. apply fewer_suffix.
    + (* Bol *)
      destruct (length s =? length subject); [|discriminate].
      apply (IH s opened g r); [now exists w | exact Hrun].
    + (* Eol *)
      destruct s as [|c [|c' s]]; try discriminate.
      * apply (IH [] opened g r); [now exists w | exact Hrun].
      * destruct (c =? nl)%N; [|discriminate].
        apply (IH [c] opened g r); [now exists w | exact Hrun].
Qed.

(** The group of a match and the text behind the match are taken from
    the text the match started in. *)
Lemma run_group_fewer (subject : str) (pat : pattern) (s : str) (r : result) :
  run subject pat s s None = Some r ->
  fewer (group1 r ++ snd r) s /\ length (snd r) <= length s.
Proof.
  intros Hrun.
  destruct (run_inv subject pat s s None r) as [[u Hu] Hg];
    [now exists [] | exact Hrun |].
  split.
  - unfold group1. destruct Hg as [Hg | [x [Hx Hf]]].
    + rewrite Hg. simpl. rewrite Hu. apply fewer_suffix.
    + now rewrite Hx.
  - rewrite Hu. rewrite length_app. lia.
Qed.

Lemma re_match_group_fewer (pat : pattern) (s : str) (m : result) :
  re_match pat s = Some m -> fewer (group1 m) s.
Proof.
  intros H. destruct (run_group_fewer s pat s m H) as [Hf _].
  intros c. specialize (Hf c). rewrite count_app in Hf. lia.
Qed.

(** Replacing matches by their group adds no character. *)
Lemma sub_from_fewer (pat : pattern) (subject : str) :
  forall (fuel : nat) (s : str),
    fewer (sub_from fuel pat group1 subject s) s.
Proof.
  induction fuel as [|fuel IH]; intros s; [destruct s; apply fewer_refl|].
  destruct s as [|c s]; [apply fewer_refl|].
  cbn [sub_from].
  destruct (run subject pat (c :: s) (c :: s) None) as [r|] eqn:Hrun.
  - destruct (length (snd r) <? length (c :: s)).
    + apply fewer_trans with (group1 r ++ snd r).
      * apply fewer_app; [apply fewer_refl | apply IH].
      * now apply (run_group_fewer subject pat).
    + apply fewer_cons, IH.
  - apply fewer_cons, IH.
Qed.

Lemma re_sub_fewer (pat : pattern) (s : str) :
  fewer (re_sub pat group1 s) s.
Proof. apply sub_from_fewer. Qed.

(* ================================================================== *)
(** * Proofs: substituting a paired marker *)
(* ================================================================== *)

Section Paired.

Variable x : char.           (* the marker *)
Variable subject : str.








End Paired.


(* ================================================================== *)
(** * Proofs: the cleaned points *)
(* ================================================================== *)





(* ================================================================== *)
(** * Proofs: the scan of a substitution ends before its fuel does *)
(* ================================================================== *)

Lemma sub_from_enough_fuel (pat : pattern) (repl : result -> str)
      (subject : str) :
  forall (f1 f2 : nat) (s : str),
    length s <= f1 -> length s <= f2 ->
    sub_from f1 pat repl subject s = sub_from f2 pat repl subject s.
Proof.
  induction f1 as [|f1 IH]; intros f2 s H1 H2.
  - destruct s; [|simpl in H1; lia]. now destruct f2.
  - destruct s as [|c s]; [now destruct f2|].
    destruct f2 as [|f2]; [simpl in H2; lia|].
    simpl in H1, H2. cbn [sub_from].
    destruct (run subject pat (c :: s) (c :: s) None) as [r|].
    + destruct (length (snd r) <? length (c :: s)) eqn:Hlt.
      * apply Nat.ltb_lt in Hlt. simpl in Hlt.
        f_equal. apply IH; lia.
      * f_equal. apply IH; lia.
    + f_equal. apply IH; lia.
Qed.

(* ================================================================== *)
(** * Proofs: a table written in the compact way *)
(* ================================================================== *)

Lemma has_char_count (c : char) (s : str) :
  has_char c s = false -> count c s = 0.
Proof.
  unfold has_char. induction s as [|d s IH]; simpl; [reflexivity|].
  intros H. apply orb_false_iff in H. destruct H as [Hd Hs].
  rewrite N.eqb_sym in Hd. rewrite Hd. now apply IH.
Qed.

Lemma split_upto_sep (sep : char) (b : str) :
  forall a : str,
    count sep a = 0 -> split sep (a ++ sep :: b) = a :: split sep b.
Proof.
  induction a as [|c a IH]; intros Ha.
  - simpl. now rewrite N.eqb_refl.
  - simpl in Ha. destruct (c =? sep)%N eqn:Hc; [discriminate|].
    simpl. rewrite Hc, IH by exact Ha. reflexivity.
Qed.

Lemma split_free (sep : char) (a : str) :
  count sep a = 0 -> split sep a = [a].
Proof. intros H. apply split_no_sep. now apply count_zero_Forall. Qed.

(** Splitting undoes joining, when there is a piece and no piece holds
    the separator. *)
Lemma split_join (sep : char) :
  forall (x : str) (xs : list str),
    Forall (fun y => count sep y = 0) (x :: xs) ->
    split sep (join [sep] (x :: xs)) = x :: xs.
Proof.
  intros x xs. revert x.
  induction xs as [|y ys IH]; intros x H; inversion H as [|? ? Hx Hxs]; subst.
  - now apply split_free.
  - change (join [sep] (x :: y :: ys)) with (x ++ sep :: join [sep] (y :: ys)).
    rewrite split_upto_sep by exact Hx. now rewrite IH.
Qed.

Lemma split_join_then_sep (sep : char) :
  forall (x : str) (xs : list str),
    Forall (fun y => count sep y = 0) (x :: xs) ->
    split sep (join [sep] (x :: xs) ++ [sep]) = (x :: xs) ++ [[]].
Proof.
  intros x xs. revert x.
  induction xs as [|y ys IH]; intros x H; inversion H as [|? ? Hx Hxs]; subst.
  - simpl join. now rewrite split_upto_sep.
  - change (join [sep] (x :: y :: ys))
      with (x ++ sep :: join [sep] (y :: ys)).
    rewrite <- app_assoc. cbn [app].
    rewrite split_upto_sep by exact Hx. now rewrite IH.
Qed.

Lemma row_ok_cells (cells : list str) :
  row_ok cells = true ->
  cells <> [] /\
  Forall (fun c => count pipe c = 0) cells /\
  Forall (fun c => count nl c = 0) cells.
Proof.
  unfold row_ok. intros H. apply andb_true_iff in H. destruct H as [Hne Hall].
  split; [now destruct cells|].
  rewrite forallb_forall in Hall.
  split; apply Forall_forall; intros c Hc; specialize (Hall c Hc);
    apply andb_true_iff in Hall; destruct Hall as [Hp Hn];
    apply has_char_count; now apply negb_true_iff.
Qed.

(** The fragments between the first and the last pipe of a compact row
    are its cells. *)
Lemma inner_fragments_row_line (cells : list str) :
  row_ok cells = true -> inner_fragments (row_line cells) = cells.
Proof.
  intros H. destruct (row_ok_cells cells H) as [Hne [Hp _]].
  destruct cells as [|c cs]; [congruence|].
  unfold inner_fragments, row_line. fold pipe.
  cbn [app split]. rewrite N.eqb_refl. cbn [tl].
  rewrite split_join_then_sep by exact Hp.
  apply removelast_last.
Qed.

Lemma table_line_row (table_data : list (list str)) (cells : list str) :
  row_ok cells = true -> is_separator (row_line cells) = false ->
  table_line table_data (row_line cells) = table_data ++ [map strip cells].
Proof.
  intros Hok Hsep. unfold table_line. fold pipe.
  fold (is_separator (row_line cells)). rewrite Hsep.
  replace (has_char pipe (row_line cells)) with true
    by (unfold row_line, has_char; cbn [app existsb];
        now rewrite N.eqb_refl).
  cbn [andb negb]. rewrite inner_fragments_row_line by exact Hok.
  destruct (row_ok_cells cells Hok) as [Hne _].
  now destruct cells.
Qed.

Lemma table_lines_rows :
  forall (rows : list (list str)) (table_data : list (list str)),
    forallb row_ok rows = true ->
    forallb (fun r => negb (is_separator (row_line r))) rows = true ->
    fold_left table_line (map row_line rows) table_data =
    table_data ++ map (map strip) rows.
Proof.
  induction rows as [|r rs IH]; intros table_data Hok Hsep.
  - simpl. now rewrite app_nil_r.
  - simpl in Hok, Hsep.
    apply andb_true_iff in Hok. destruct Hok as [Hr Hrs].
    apply andb_true_iff in Hsep. destruct Hsep as [Hs Hss].
    apply negb_true_iff in Hs.
    cbn [map fold_left]. rewrite table_line_row by assumption.
    rewrite IH by assumption. now rewrite <- app_assoc.
Qed.

Lemma table_line_separator (table_data : list (list str)) (line : str) :
  is_separator line = true -> table_line table_data line = table_data.
Proof.
  intros H. unfold table_line. fold (is_separator line). rewrite H.
  now rewrite andb_false_r.
Qed.

(** What C4 says holds when the table is written in the compact way and
    its separator row starts with a pipe and three hyphens: for a header
    of [H] cells and [R] data rows of [H] cells each, the parser returns
    [R + 1] rows of [H] cells each, the trimmed cells of the header and
    of the data rows, and the separator row is not among them. *)
Lemma compact_table_is_parsed (header : list str) (rows : list (list str))
      (separator : str) :
  forallb row_ok (header :: rows) = true ->
  forallb (fun r => negb (is_separator (row_line r))) (header :: rows) = true ->
  forallb (fun r => length r =? length header) rows = true ->
  is_separator separator = true ->
  has_char nl separator = false ->
  let data := join [nl] (row_line header :: separator :: map row_line rows) in
  parse_table data = map (map strip) (header :: rows) /\
  length (parse_table data) = length rows + 1 /\
  Forall (fun row => length row = length header) (parse_table data).
Proof.
  intros Hok Hsep Hlen Hs Hnl data.
  assert (Hparse : parse_table data = map (map strip) (header :: rows)).
  { unfold parse_table, data.
    rewrite split_join.
    - pose proof Hok as Hok'. pose proof Hsep as Hsep'.
      simpl in Hok', Hsep'.
      apply andb_true_iff in Hok'. destruct Hok' as [Hh Hrs].
      apply andb_true_iff in Hsep'. destruct Hsep' as [Hhs Hrss].
      apply negb_true_iff in Hhs.
      cbn [fold_left]. rewrite table_line_row by assumption.
      rewrite table_line_separator by assumption.
      rewrite table_lines_rows by assumption. reflexivity.
    - assert (Hrow : forall r, row_ok r = true -> count nl (row_line r) = 0).
      { intros r Hr. destruct (row_ok_cells r Hr) as [_ [_ Hn]].
        unfold row_line. rewrite !count_app. simpl.
        assert (Hj : count nl (join [pipe] r) = 0).
        { clear Hr. induction Hn as [|c cs Hc Hcs IH]; [reflexivity|].
          destruct cs as [|c' cs']; [exact Hc|].
          change (join [pipe] (c :: c' :: cs'))
            with (c ++ pipe :: join [pipe] (c' :: cs')).
          rewrite count_app. cbn [count].
          change (pipe =? nl)%N with false. rewrite Hc, IH. reflexivity. }
        rewrite Hj. reflexivity. }
      rewrite forallb_forall in Hok.
      constructor; [apply Hrow, Hok; now left|].
      constructor; [now apply has_char_count|].
      apply Forall_forall. intros l Hl. apply in_map_iff in Hl.
      destruct Hl as [r [<- Hr]]. apply Hrow, Hok. now right. }
  rewrite Hparse. split; [reflexivity|]. split.
  - cbn [map length]. rewrite length_map. lia.
  - constructor; [apply length_map|].
    apply Forall_forall. intros row Hrow. apply in_map_iff in Hrow.
    destruct Hrow as [r [<- Hr]]. rewrite length_map.
    rewrite forallb_forall in Hlen. now apply Nat.eqb_eq, Hlen.
Qed.

Example compact_table_of_the_scenario :
  parse_table
    (join [nl]
       (row_line [py " Path "; py " Method "]
        :: py "|------|--------|"
        :: map row_line [[py " /tags "; py " GET "];
                         [py " /tags "; py " POST "]])) =
  [[py "Path"; py "Method"]; [py "/tags"; py "GET"]; [py "/tags"; py "POST"]].
Proof.
  apply (compact_table_is_parsed
           [py " Path "; py " Method "]
           [[py " /tags "; py " GET "]; [py " /tags "; py " POST "]]
           (py "|------|--------|")); reflexivity.
Qed.

(* ================================================================== *)
(** * The functions on small inputs *)
(* ================================================================== *)

Example strip_both_ends : strip (py "  a b  ") = py "a b".
Proof. reflexivity. Qed.

Example split_keeps_empty_pieces :
  split nl (py "a\n\nb\n") = [py "a"; []; py "b"; []].
Proof. reflexivity. Qed.

Example title_of_a_language_tag :
  title_ascii (py "python3 code-x") = py "Python3 Code-X".
Proof. reflexivity. Qed.

(** The white space behind the marker is given back so that the group
    has a character to hold. *)
Example bullet_with_blanks_only :
  option_map group1 (re_match bullet_pattern (py "-  ")) = Some (py " ") /\
  extract_key_points (py "-  ") = [[]].
Proof. split; reflexivity. Qed.

Example numbered_needs_the_dot_after_the_digits :
  re_match numbered_pattern (py "1 . x") = None /\
  option_map group1 (re_match numbered_pattern (py "10.x")) = Some (py "x").
Proof. split; reflexivity. Qed.

Example bold_takes_the_first_closing_pair :
  re_sub bold_pattern group1 (py "***a***") = py "*a*" /\
  clean_markdown (py "***a***") = py "a".
Proof. split; reflexivity. Qed.

Example markup_is_resolved :
  extract_key_points (py "- **bold** and *it* with `code` and [text](url)")
  = [py "bold and it with code and text"].
Proof. reflexivity. Qed.

Example language_of_an_indented_fence :
  fence_language (py "  ```py") = py "```py" /\
  fence_language (py "```") = py "text".
Proof. split; reflexivity. Qed.

Example heading_of_third_level_is_a_body_line :
  parse_readme_content (py "# A\n### deeper\ntext") =
  [mk_section (py "A") (py "### deeper\ntext") 0].
Proof. reflexivity. Qed.

Example lines_after_an_untitled_heading :
  parse_readme_content (py "# A\none\n# \ntwo") =
  [mk_section (py "A") (py "one") 0].
Proof. reflexivity. Qed.

Example free_text_preview :
  preview (py "One `x`.\n\nTwo [a](b) #\n```\ncode\n```\nThree\nFour") =
  py "One x. Two Three...".
Proof. reflexivity. Qed.

(* ================================================================== *)
(** * Proofs: stripping twice *)
(* ================================================================== *)

Lemma lstrip_clean_head (p : char -> bool) (s : str) :
  clean_head p (lstrip p s).
Proof.
  induction s as [|c s IH]; simpl; [exact I|].
  destruct (p c) eqn:Hc; [exact IH | exact Hc].
Qed.

Lemma lstrip_id (p : char -> bool) (s : str) :
  clean_head p s -> lstrip p s = s.
Proof. destruct s as [|c s]; simpl; [reflexivity | now intros ->]. Qed.

Lemma clean_head_prefix (p : char -> bool) (a b : str) :
  clean_head p (a ++ b) -> clean_head p a.
Proof. destruct a; [now intros _ | exact (fun H => H)]. Qed.

(** What [strip] returns starts and ends with no character of the class. *)
Lemma strip_with_clean (p : char -> bool) (s : str) :
  clean_head p (strip_with p s) /\ clean_head p (rev (strip_with p s)).
Proof.
  unfold strip_with, rstrip.
  set (a := lstrip p s). set (b := lstrip p (rev a)).
  split.
  - destruct (lstrip_suffix p (rev a)) as [u Hu]. fold b in Hu.
    assert (Ha : a = rev b ++ rev u).
    { rewrite <- (rev_involutive a), Hu, rev_app_distr. reflexivity. }
    apply (clean_head_prefix p (rev b) (rev u)). rewrite <- Ha.
    apply lstrip_clean_head.
  - rewrite rev_involutive. apply lstrip_clean_head.
Qed.

Lemma strip_with_idem (p : char -> bool) (s : str) :
  strip_with p (strip_with p s) = strip_with p s.
Proof.
  destruct (strip_with_clean p s) as [H1 H2].
  unfold strip_with at 1. unfold rstrip.
  rewrite (lstrip_id p _ H1), (lstrip_id p _ H2).
  apply rev_involutive.
Qed.

(* ================================================================== *)
(** * Proofs: the titles and the bodies of the sections *)
(* ================================================================== *)

Lemma truthy_nonempty (t : str) : truthy (Some t) = negb (eqb t []).
Proof. destruct t; reflexivity. Qed.

Lemma save_section_titles (st : parse_state) :
  map sec_title (save_section st) =
  map sec_title (sections st) ++
  match current_section st with
  | Some t => if negb (eqb t []) then [t] else []
  | None => []
  end.
Proof.
  unfold save_section. destruct (current_section st) as [t|].
  - rewrite truthy_nonempty. destruct (negb (eqb t [])).
    + now rewrite map_app.
    + now rewrite app_nil_r.
  - now rewrite app_nil_r.
Qed.

Lemma parse_line_titles (st : parse_state) (line : str) :
  map sec_title (save_section (parse_line st line)) =
  map sec_title (save_section st) ++ section_titles [line].
Proof.
  unfold parse_line, section_titles. cbn [filter].
  destruct (is_heading line).
  - rewrite save_section_titles. cbn [sections current_section map filter].
    now destruct (negb (eqb (heading_title line) [])).
  - cbn [map filter]. rewrite app_nil_r.
    destruct (truthy (current_section st)); [|reflexivity].
    now rewrite !save_section_titles.
Qed.

Lemma section_titles_cons (l : str) (ls : list str) :
  section_titles (l :: ls) = section_titles [l] ++ section_titles ls.
Proof.
  unfold section_titles. cbn [filter].
  destruct (is_heading l); [|reflexivity].
  cbn [map filter]. now destruct (negb (eqb (heading_title l) [])).
Qed.

Lemma parse_lines_titles :
  forall (lines : list str) (st : parse_state),
    map sec_title (save_section (fold_left parse_line lines st)) =
    map sec_title (save_section st) ++ section_titles lines.
Proof.
  induction lines as [|l ls IH]; intros st.
  - simpl. now rewrite app_nil_r.
  - cbn [fold_left].
    rewrite IH, parse_line_titles, (section_titles_cons l ls).
    now rewrite <- app_assoc.
Qed.

(** X1.  The titles of the sections are the titles of the heading lines
    of the document, in the order of the document, with the empty ones
    left out: there is one section for each heading line that has a
    title. *)
Theorem sections_follow_the_heading_lines :
  forall content : str,
    map sec_title (parse_readme_content content) =
    section_titles (lines_of content) /\
    length (parse_readme_content content) =
    length (section_titles (lines_of content)).
Proof.
  intros content.
  assert (H : map sec_title (parse_readme_content content) =
              section_titles (lines_of content)).
  { unfold parse_readme_content. fold (lines_of content).
    now rewrite parse_lines_titles. }
  split; [exact H|]. rewrite <- H. now rewrite length_map.
Qed.

(** X2.  Every section has a title that is not empty and that neither
    starts nor ends with white space. *)
Theorem section_titles_are_trimmed :
  forall (content : str) (sec : section),
    In sec (parse_readme_content content) ->
    sec_title sec <> [] /\ strip (sec_title sec) = sec_title sec.
Proof.
  intros content sec Hin. split.
  - pose proof (parse_readme_content_titled content) as Ht.
    rewrite Forall_forall in Ht. specialize (Ht sec Hin).
    unfold titled in Ht. intros He. now rewrite He in Ht.
  - assert (Hs : In (sec_title sec) (section_titles (lines_of content))).
    { unfold parse_readme_content in Hin. fold (lines_of content) in Hin.
      rewrite <- (app_nil_l (section_titles _)).
      change (@nil str) with (map sec_title (save_section parse_start)).
      rewrite <- parse_lines_titles. now apply in_map. }
    unfold section_titles in Hs. apply filter_In in Hs.
    destruct Hs as [Hs _]. apply in_map_iff in Hs.
    destruct Hs as [l [<- _]]. unfold heading_title, strip.
    apply strip_with_idem.
Qed.

Lemma section_titles_are_trimmed_witness :
  py "Usage" <> [] /\ strip (py "Usage") = py "Usage".
Proof.
  apply (section_titles_are_trimmed (py "intro\n##   Usage  ##\nrun it")
           (mk_section (py "Usage") (py "run it") 0)).
  vm_compute. left. reflexivity.
Defined.

Lemma save_section_plain (st : parse_state) :
  Forall (fun sec => plain_body (sec_content sec)) (sections st) ->
  Forall (fun l => is_heading l = false /\ count nl l = 0)
         (current_content st) ->
  Forall (fun sec => plain_body (sec_content sec)) (save_section st).
Proof.
  intros Hs Hc. unfold save_section.
  destruct (current_section st) as [t|]; [|exact Hs].
  destruct (truthy (Some t)); [|exact Hs].
  apply Forall_app. split; [exact Hs|].
  constructor; [|constructor].
  now exists (current_content st).
Qed.

Lemma parse_lines_plain :
  forall (lines : list str) (st : parse_state),
    Forall (fun l => count nl l = 0) lines ->
    Forall (fun sec => plain_body (sec_content sec)) (sections st) ->
    Forall (fun l => is_heading l = false /\ count nl l = 0)
           (current_content st) ->
    Forall (fun sec => plain_body (sec_content sec))
           (save_section (fold_left parse_line lines st)).
Proof.
  induction lines as [|l ls IH]; intros st Hl Hs Hc.
  - now apply save_section_plain.
  - inversion Hl as [|? ? Hnl Hls]; subst.
    cbn [fold_left]. apply IH; [exact Hls | |]; unfold parse_line;
      destruct (is_heading l) eqn:Hh; cbn [sections current_content].
    + now apply save_section_plain.
    + now destruct (truthy (current_section st)).
    + constructor.
    + destruct (truthy (current_section st)); [|exact Hc].
      cbn [current_content]. apply Forall_app. split; [exact Hc|].
      now repeat constructor.
Qed.

Lemma plain_body_no_heading (s : str) :
  plain_body s -> no_heading s = true.
Proof.
  intros [ls [-> Hls]]. unfold no_heading, lines_of.
  apply negb_true_iff.
  destruct ls as [|l ls]; [reflexivity|].
  rewrite split_join.
  - induction Hls as [|x xs [Hx _] _ IH]; [reflexivity|].
    simpl. now rewrite Hx.
  - apply Forall_forall. intros x Hx.
    rewrite Forall_forall in Hls. now apply Hls.
Qed.

(** X3.  The body of a section holds no heading line, so it holds no
    section of its own: segmenting it gives nothing. *)
Theorem section_body_has_no_section :
  forall (content : str) (sec : section),
    In sec (parse_readme_content content) ->
    no_heading (sec_content sec) = true /\
    parse_readme_content (sec_content sec) = [].
Proof.
  intros content sec Hin.
  assert (Hall : Forall (fun sec => plain_body (sec_content sec))
                        (parse_readme_content content)).
  { unfold parse_readme_content. apply parse_lines_plain.
    - apply split_lines_free.
    - constructor.
    - constructor. }
  rewrite Forall_forall in Hall.
  pose proof (plain_body_no_heading _ (Hall sec Hin)) as Hno.
  split; [exact Hno|].
  unfold parse_readme_content. fold (lines_of (sec_content sec)).
  rewrite parse_without_heading; [reflexivity|].
  unfold no_heading in Hno. now apply negb_true_iff.
Qed.

Lemma section_body_has_no_section_witness :
  no_heading (py "### note\n#tag\n") = true /\
  parse_readme_content (py "### note\n#tag\n") = [].
Proof.
  apply (section_body_has_no_section (py "# A\n### note\n#tag\n\n## B")
           (mk_section (py "A") (py "### note\n#tag\n") 0)).
  vm_compute. left. reflexivity.
Defined.

(* ================================================================== *)
(** * Proofs: every body with fences *)
(* ================================================================== *)

Lemma code_line_fences_read (st : code_state) (line : str) :
  fences_read (code_line st line) =
  fences_read st + (if is_fence line then 1 else 0).
Proof.
  unfold code_line, fences_read.
  destruct (is_fence line), (in_code_block st) eqn:Hin;
    cbn [code_blocks in_code_block]; rewrite ?length_app, ?Hin; simpl; lia.
Qed.

Lemma code_lines_fences_read :
  forall (lines : list str) (st : code_state),
    fences_read (fold_left code_line lines st) =
    fences_read st + length (filter is_fence lines).
Proof.
  induction lines as [|l ls IH]; intros st; [simpl; lia|].
  cbn [fold_left filter]. rewrite IH, code_line_fences_read.
  destruct (is_fence l); simpl; lia.
Qed.

(** X4.  Whatever the body, the number of code blocks is half the number
    of its fence lines, rounded down: the fence lines are paired in
    order, and one that is left over opens a block that is dropped. *)
Theorem code_blocks_pair_the_fence_lines :
  forall content : str,
    length (extract_code_blocks content) =
    length (filter is_fence (lines_of content)) / 2.
Proof.
  intros content. unfold extract_code_blocks. fold (lines_of content).
  pose proof (code_lines_fences_read (lines_of content) code_start) as H.
  unfold fences_read in H. cbn [code_start code_blocks in_code_block length] in H.
  set (st := fold_left code_line (lines_of content) code_start) in *.
  destruct (in_code_block st).
  - apply (Nat.div_unique _ 2 _ 1); lia.
  - apply (Nat.div_unique _ 2 _ 0); lia.
Qed.

Lemma fence_language_nonempty (line : str) : fence_language line <> [].
Proof.
  unfold fence_language.
  destruct (strip (strip_chars [backtick] line)); discriminate.
Qed.

Lemma code_line_ok (st : code_state) (line : str) :
  count nl line = 0 -> code_state_ok st -> code_state_ok (code_line st line).
Proof.
  intros Hnl [Hb [Hc Hl]]. unfold code_line, code_state_ok.
  destruct (is_fence line) eqn:Hf.
  - destruct (in_code_block st) eqn:Hin;
      cbn [code_blocks current_code in_code_block current_language].
    + repeat split; [|constructor|discriminate].
      apply Forall_app. split; [exact Hb|].
      constructor; [|constructor]. split; [now apply Hl|].
      now exists (current_code st).
    + repeat split; [exact Hb | exact Hc |].
      intros _. apply fence_language_nonempty.
  - destruct (in_code_block st) eqn:Hin;
      cbn [code_blocks current_code in_code_block current_language].
    + repeat split; [exact Hb | | exact (fun _ => Hl eq_refl)].
      apply Forall_app. split; [exact Hc|]. now repeat constructor.
    + repeat split; [exact Hb | exact Hc | congruence].
Qed.

Lemma code_lines_ok :
  forall (lines : list str) (st : code_state),
    Forall (fun l => count nl l = 0) lines ->
    code_state_ok st -> code_state_ok (fold_left code_line lines st).
Proof.
  induction lines as [|l ls IH]; intros st Hl Hst; [exact Hst|].
  inversion Hl; subst. cbn [fold_left]. apply IH; [assumption|].
  now apply code_line_ok.
Qed.

Lemma extract_code_blocks_ok (content : str) :
  Forall (fun b => language b <> [] /\ plain_code (code b))
         (extract_code_blocks content).
Proof.
  unfold extract_code_blocks.
  apply (code_lines_ok (split nl content) code_start).
  - apply split_lines_free.
  - repeat split; [constructor | constructor | discriminate].
Qed.

Lemma fence_language_trimmed (line : str) :
  strip (fence_language line) = fence_language line.
Proof.
  unfold fence_language.
  destruct (strip (strip_chars [backtick] line)) as [|c l] eqn:Hs;
    [reflexivity|].
  rewrite <- Hs. unfold strip. apply strip_with_idem.
Qed.

(** The language of every block, and of the block that is open, is read
    from a fence line among [all]. *)
Lemma code_lines_languages (all : list str) :
  forall (lines : list str) (st : code_state),
    (forall l, In l lines -> In l all) ->
    Forall (fun b => exists line, In line all /\ is_fence line = true /\
                                  language b = fence_language line)
           (code_blocks st) ->
    (in_code_block st = true ->
     exists line, In line all /\ is_fence line = true /\
                  current_language st = fence_language line) ->
    Forall (fun b => exists line, In line all /\ is_fence line = true /\
                                  language b = fence_language line)
           (code_blocks (fold_left code_line lines st)).
Proof.
  induction lines as [|l ls IH]; intros st Hsub Hb Hl; [exact Hb|].
  cbn [fold_left]. apply IH.
  - intros x Hx. apply Hsub. now right.
  - unfold code_line.
    destruct (is_fence l) eqn:Hf; [|now destruct (in_code_block st)].
    destruct (in_code_block st) eqn:Hin; cbn [code_blocks]; [|exact Hb].
    apply Forall_app. split; [exact Hb|].
    constructor; [|constructor]. now apply Hl.
  - unfold code_line.
    destruct (is_fence l) eqn:Hf.
    + destruct (in_code_block st) eqn:Hin;
        cbn [in_code_block current_language]; [discriminate|].
      intros _. exists l. repeat split; [apply Hsub; now left | exact Hf].
    + destruct (in_code_block st) eqn:Hin;
        cbn [in_code_block current_language]; [|congruence].
      intros _. now apply Hl.
Qed.

(** X5.  The language tag of every code block is what the source reads
    from one of the fence lines of the body (the line without the
    backticks at its ends, trimmed, or [text] when nothing is left); it
    is never empty, and it neither starts nor ends with white space. *)
Theorem code_block_language_is_never_empty :
  forall (content : str) (b : code_block),
    In b (extract_code_blocks content) ->
    language b <> [] /\
    strip (language b) = language b /\
    exists line,
      In line (split nl content) /\ is_fence line = true /\
      language b = fence_language line.
Proof.
  intros content b Hin.
  assert (H : exists line,
             In line (split nl content) /\ is_fence line = true /\
             language b = fence_language line).
  { assert (Hall := code_lines_languages (split nl content)
                        (split nl content) code_start (fun l H => H)
                        (Forall_nil _) (fun H => False_ind _ (diff_false_true H))).
    unfold extract_code_blocks in Hin.
    rewrite Forall_forall in Hall. now apply Hall. }
  destruct H as [line [Hline [Hf Hlang]]].
  repeat split.
  - rewrite Hlang. apply fence_language_nonempty.
  - rewrite Hlang. apply fence_language_trimmed.
  - now exists line.
Qed.

Lemma code_block_language_is_never_empty_witness :
  language (mk_code_block (py "```sh") (py "x")) <> [] /\
  strip (language (mk_code_block (py "```sh") (py "x"))) =
  language (mk_code_block (py "```sh") (py "x")) /\
  exists line,
    In line (split nl (py "text\n ```sh \nx\n```")) /\ is_fence line = true /\
    language (mk_code_block (py "```sh") (py "x")) = fence_language line.
Proof.
  apply (code_block_language_is_never_empty (py "text\n ```sh \nx\n```")
           (mk_code_block (py "```sh") (py "x"))).
  vm_compute. left. reflexivity.
Defined.

Lemma plain_code_lines (s : str) :
  plain_code s -> plain (lines_of s) = true.
Proof.
  intros [ls [-> Hls]]. unfold lines_of.
  destruct ls as [|l ls]; [reflexivity|].
  rewrite split_join.
  - unfold plain. apply forallb_forall. intros x Hx.
    rewrite Forall_forall in Hls. destruct (Hls x Hx) as [Hf _].
    now rewrite Hf.
  - apply Forall_forall. intros x Hx.
    rewrite Forall_forall in Hls. now apply Hls.
Qed.

(** X6.  The code of a block holds no fence line: a block never holds
    another block, and extracting the blocks of its code gives nothing. *)
Theorem code_of_a_block_has_no_fence :
  forall (content : str) (b : code_block),
    In b (extract_code_blocks content) ->
    plain (lines_of (code b)) = true /\
    extract_code_blocks (code b) = [].
Proof.
  intros content b Hin.
  pose proof (extract_code_blocks_ok content) as H.
  rewrite Forall_forall in H. destruct (H b Hin) as [_ Hp].
  pose proof (plain_code_lines _ Hp) as Hplain.
  split; [exact Hplain|].
  unfold extract_code_blocks. fold (lines_of (code b)).
  now rewrite code_lines_outside.
Qed.

Lemma code_of_a_block_has_no_fence_witness :
  plain (lines_of (py "x = 1\n\n`y`")) = true /\
  extract_code_blocks (py "x = 1\n\n`y`") = [].
Proof.
  apply (code_of_a_block_has_no_fence
           (py "a\n```py\nx = 1\n\n`y`\n```\n```")
           (mk_code_block (py "py") (py "x = 1\n\n`y`"))).
  vm_compute. left. reflexivity.
Defined.

(* ================================================================== *)
(** * Proofs: where the key points come from *)
(* ================================================================== *)

Lemma split_line_fewer (sep : char) :
  forall (s l : str), In l (split sep s) -> fewer l s.
Proof.
  induction s as [|c s IH]; intros l Hin.
  - destruct Hin as [<- | []]. apply fewer_refl.
  - simpl in Hin. destruct (c =? sep)%N.
    + destruct Hin as [<- | Hin].
      * intros d. simpl. lia.
      * apply fewer_trans with s; [now apply IH | apply (fewer_suffix [c])].
    + destruct (split sep s) as [|l0 ls] eqn:Hs.
      * destruct Hin as [<- | []]. apply fewer_cons. intros d. simpl. lia.
      * destruct Hin as [<- | Hin].
        -- apply fewer_cons. apply IH. now left.
        -- apply fewer_trans with s; [|apply (fewer_suffix [c])].
           apply IH. now right.
Qed.

Lemma clean_markdown_fewer (point : str) : fewer (clean_markdown point) point.
Proof.
  unfold clean_markdown.
  eapply fewer_trans; [apply re_sub_fewer|].
  eapply fewer_trans; [apply re_sub_fewer|].
  eapply fewer_trans; [apply re_sub_fewer|].
  apply re_sub_fewer.
Qed.

Lemma point_of_fewer (pat : pattern) (line p : str) :
  point_of pat line = Some p -> fewer p line.
Proof.
  unfold point_of. destruct (re_match pat line) as [m|] eqn:Hm; [|discriminate].
  intros H. inversion H; subst.
  eapply fewer_trans; [apply clean_markdown_fewer|].
  eapply fewer_trans; [apply fewer_strip_with|].
  now apply (re_match_group_fewer pat).
Qed.

Lemma points_in_order_from_lines (pat : pattern) :
  forall (lines : list str) (p : str),
    In p (points_in_order pat lines) ->
    exists l, In l lines /\ fewer p l.
Proof.
  induction lines as [|l ls IH]; intros p Hin; [destruct Hin|].
  simpl in Hin. destruct (point_of pat l) as [q|] eqn:Hq.
  - destruct Hin as [<- | Hin].
    + exists l. split; [now left | now apply (point_of_fewer pat)].
    + destruct (IH p Hin) as [l' [Hl' Hf]]. exists l'. split; [now right | exact Hf].
  - destruct (IH p Hin) as [l' [Hl' Hf]]. exists l'. split; [now right | exact Hf].
Qed.

(** X7.  A key point is taken from one line of the body: it holds no
    newline, and it has no more of any character than that line has, so
    cleaning a point only ever removes characters. *)
Theorem key_point_comes_from_one_line :
  forall (content p : str),
    In p (extract_key_points content) ->
    count nl p = 0 /\
    exists line, In line (lines_of content) /\ fewer p line.
Proof.
  intros content p Hp.
  destruct (bullets_in_line_then_numbers content) as [_ Heq].
  rewrite Heq in Hp. apply in_firstn in Hp. apply in_app_or in Hp.
  assert (H : exists l, In l (lines_of content) /\ fewer p l).
  { destruct Hp as [Hp | Hp];
      now apply (points_in_order_from_lines _ _ _ Hp). }
  destruct H as [l [Hl Hf]]. split; [|now exists l].
  apply (fewer_count_zero nl p l Hf).
  pose proof (split_lines_free nl content) as Hfree.
  rewrite Forall_forall in Hfree. now apply Hfree.
Qed.

Lemma key_point_comes_from_one_line_witness :
  count nl (py "bold text") = 0 /\
  exists line,
    In line (lines_of (py "intro\n  * **bold** [text](url)\n")) /\
    fewer (py "bold text") line.
Proof.
  apply (key_point_comes_from_one_line
           (py "intro\n  * **bold** [text](url)\n") (py "bold text")).
  vm_compute. left. reflexivity.
Defined.

(** X8.  When eight lines or more match the bullet pattern, the result
    is the first eight bullet points: every numbered point is cut, also
    one that stands before the bullets in the body. *)
Theorem eight_bullets_leave_no_numbered_point :
  forall content : str,
    8 <= length (points_in_order bullet_pattern (lines_of content)) ->
    extract_key_points content =
    firstn 8 (points_in_order bullet_pattern (lines_of content)).
Proof.
  intros content H.
  destruct (bullets_in_line_then_numbers content) as [_ ->].
  rewrite firstn_app.
  replace (8 - length (points_in_order bullet_pattern (lines_of content)))
    with 0 by lia.
  now rewrite firstn_0, app_nil_r.
Qed.

Lemma eight_bullets_leave_no_numbered_point_witness :
  extract_key_points (py "1. first\n- a\n- b\n- c\n- d\n- e\n- f\n- g\n- h\n- i") =
  firstn 8
    (points_in_order bullet_pattern
       (lines_of (py "1. first\n- a\n- b\n- c\n- d\n- e\n- f\n- g\n- h\n- i"))).
Proof.
  apply (eight_bullets_leave_no_numbered_point
           (py "1. first\n- a\n- b\n- c\n- d\n- e\n- f\n- g\n- h\n- i")).
  vm_compute. repeat constructor.
Defined.

(* ================================================================== *)
(** * Proofs: a bullet without text *)
(* ================================================================== *)

Lemma greedy_gives_back_one (p : char -> bool) (k : str -> option result)
      (r : result) (l : char) :
  forall init : str,
    Forall (fun c => p c = true) (init ++ [l]) ->
    k [] = None -> k [l] = Some r ->
    greedy p k (init ++ [l]) = Some r.
Proof.
  induction init as [|c init IH]; intros Hall Hnone Hone;
    inversion Hall as [|? ? Hc Hrest]; subst.
  - simpl. now rewrite Hc, Hnone.
  - cbn [app greedy]. now rewrite Hc, IH.
Qed.

Lemma bullet_glyph_is_no_space (c : char) :
  bullet_glyph c = true ->
  is_space c = false /\ is_decimal c = false /\ (c =? nl)%N = false.
Proof.
  unfold bullet_glyph. cbn [existsb]. intros H.
  repeat (apply orb_true_iff in H; destruct H as [H | H];
          [apply N.eqb_eq in H; subst c; repeat split; reflexivity|]).
  discriminate.
Qed.

Lemma blank_chars (ws : str) :
  forallb blank ws = true ->
  Forall (fun c => is_space c = true) ws /\
  Forall (fun c => (c =? nl)%N = false) ws.
Proof.
  intros H. rewrite forallb_forall in H.
  split; apply Forall_forall; intros c Hc; specialize (H c Hc);
    unfold blank in H; apply andb_true_iff in H; destruct H as [H1 H2];
    [exact H1 | now apply negb_true_iff].
Qed.

Lemma bullet_pattern_on_blanks (marker : char) (ws : str) :
  bullet_glyph marker = true -> ws <> [] -> forallb blank ws = true ->
  exists l, is_space l = true /\
            re_match bullet_pattern (marker :: ws) = Some (Some [l], []).
Proof.
  intros Hm Hne Hws.
  destruct (bullet_glyph_is_no_space marker Hm) as [Hsp _].
  destruct (blank_chars ws Hws) as [Hspace Hnl].
  destruct (exists_last Hne) as [init [l Hl]]. subst ws.
  assert (Hl_space : is_space l = true)
    by (rewrite Forall_forall in Hspace; apply Hspace, in_or_app; right; now left).
  assert (Hl_nl : (l =? nl)%N = false)
    by (rewrite Forall_forall in Hnl; apply Hnl, in_or_app; right; now left).
  exists l. split; [exact Hl_space|].
  unfold re_match, bullet_pattern. cbn [run]. rewrite Nat.eqb_refl.
  rewrite greedy_stops by exact Hsp. rewrite Hm.
  apply greedy_gives_back_one; [exact Hspace | reflexivity |].
  unfold dot. rewrite Hl_nl. reflexivity.
Qed.

Lemma strip_one_space (l : char) : is_space l = true -> strip [l] = [].
Proof.
  intros H. unfold strip, strip_with, rstrip. cbn [lstrip]. now rewrite H.
Qed.

(** X9.  A line made of a bullet marker followed by white space only is
    taken as a bullet all the same: the last white-space character is
    given to the text, the text is trimmed, and the point is the empty
    string.  A body made of that line alone has this one empty point. *)
Theorem blank_bullet_gives_an_empty_point :
  forall (marker : char) (ws : str),
    bullet_glyph marker = true -> ws <> [] -> forallb blank ws = true ->
    point_of bullet_pattern (marker :: ws) = Some [] /\
    extract_key_points (marker :: ws) = [[]].
Proof.
  intros marker ws Hm Hne Hws.
  destruct (bullet_pattern_on_blanks marker ws Hm Hne Hws) as [l [Hl Hmatch]].
  destruct (bullet_glyph_is_no_space marker Hm) as [Hsp [Hdec Hmnl]].
  assert (Hb : point_of bullet_pattern (marker :: ws) = Some []).
  { unfold point_of. rewrite Hmatch. unfold group1. cbn [fst].
    now rewrite strip_one_space. }
  split; [exact Hb|].
  destruct (bullets_in_line_then_numbers (marker :: ws)) as [_ ->].
  unfold lines_of. rewrite split_no_sep.
  - cbn [points_in_order]. rewrite Hb.
    unfold point_of, re_match, numbered_pattern. cbn [run].
    rewrite Nat.eqb_refl, greedy_stops by exact Hsp.
    now rewrite Hdec.
  - constructor; [exact Hmnl|]. now destruct (blank_chars ws Hws).
Qed.

Lemma blank_bullet_gives_an_empty_point_witness :
  point_of bullet_pattern (py "*  ") = Some [] /\
  extract_key_points (py "*  ") = [[]].
Proof.
  apply (blank_bullet_gives_an_empty_point (ch "*") (py "  ")).
  - reflexivity.
  - discriminate.
  - reflexivity.
Defined.

(* ================================================================== *)
(** * Proofs: every table *)
(* ================================================================== *)

Lemma in_removelast (A : Type) (x : A) :
  forall l : list A, In x (removelast l) -> In x l.
Proof.
  induction l as [|a [|b l] IH]; simpl; intros H; [destruct H | destruct H|].
  destruct H as [<- | H]; [now left | right; now apply IH].
Qed.

Lemma in_tl (A : Type) (x : A) (l : list A) : In x (tl l) -> In x l.
Proof. destruct l; simpl; [exact (fun H => H) | now right]. Qed.

Lemma inner_fragment_ok (line f : str) :
  count nl line = 0 -> In f (inner_fragments line) -> cell_ok (strip f).
Proof.
  intros Hnl Hin. unfold inner_fragments in Hin.
  apply in_removelast, in_tl in Hin.
  pose proof (split_lines_free pipe line) as Hfree.
  rewrite Forall_forall in Hfree. specialize (Hfree f Hin).
  pose proof (split_line_fewer pipe line f Hin) as Hfew.
  pose proof (fewer_strip_with is_space f) as Hstrip.
  repeat split.
  - apply strip_with_idem.
  - now apply (fewer_count_zero pipe _ f Hstrip).
  - apply (fewer_count_zero nl _ f Hstrip).
    now apply (fewer_count_zero nl f line Hfew).
Qed.

Lemma table_line_kept (table_data : list (list str)) (line : str) :
  count nl line = 0 -> Forall row_kept table_data ->
  Forall row_kept (table_line table_data line).
Proof.
  intros Hnl Htd. unfold table_line.
  destruct (has_char (ch "|") line && _); [|exact Htd].
  destruct (map strip (inner_fragments line)) as [|c cs] eqn:Hrow; [exact Htd|].
  apply Forall_app. split; [exact Htd|].
  constructor; [|constructor]. split; [discriminate|].
  rewrite <- Hrow. apply Forall_forall. intros cell Hcell.
  apply in_map_iff in Hcell. destruct Hcell as [f [<- Hf]].
  now apply (inner_fragment_ok line).
Qed.

Lemma table_lines_kept :
  forall (lines : list str) (table_data : list (list str)),
    Forall (fun l => count nl l = 0) lines ->
    Forall row_kept table_data ->
    Forall row_kept (fold_left table_line lines table_data).
Proof.
  induction lines as [|l ls IH]; intros td Hl Htd; [exact Htd|].
  inversion Hl; subst. cbn [fold_left]. apply IH; [assumption|].
  now apply table_line_kept.
Qed.

Lemma parse_table_kept (data : str) : Forall row_kept (parse_table data).
Proof.
  unfold parse_table. apply table_lines_kept;
    [apply split_lines_free | constructor].
Qed.

(** X10.  Whatever the text, no row that the row parser returns is
    empty, and every cell of it is trimmed, holds no pipe and holds no
    newline. *)
Theorem parsed_rows_have_trimmed_cells :
  forall (data : str) (row : list str),
    In row (parse_table data) ->
    row <> [] /\
    forall cell : str,
      In cell row ->
      strip cell = cell /\ has_char pipe cell = false /\
      has_char nl cell = false.
Proof.
  intros data row Hin.
  pose proof (parse_table_kept data) as H.
  rewrite Forall_forall in H. destruct (H row Hin) as [Hne Hcells].
  split; [exact Hne|]. intros cell Hcell.
  rewrite Forall_forall in Hcells.
  destruct (Hcells cell Hcell) as [Hs [Hp Hn]].
  assert (Hc : forall c, count c cell = 0 -> has_char c cell = false).
  { intros c Hz. apply count_zero_Forall in Hz. unfold has_char.
    apply not_true_is_false. intros Hex. apply existsb_exists in Hex.
    destruct Hex as [d [Hd He]]. rewrite Forall_forall in Hz.
    specialize (Hz d Hd). rewrite N.eqb_sym in Hz. congruence. }
  repeat split; [exact Hs | now apply Hc | now apply Hc].
Qed.

Lemma parsed_rows_have_trimmed_cells_witness :
  [py "a b"; []] <> [] /\
  forall cell : str,
    In cell [py "a b"; []] ->
    strip cell = cell /\ has_char pipe cell = false /\
    has_char nl cell = false.
Proof.
  apply (parsed_rows_have_trimmed_cells (py "no row\nx |  a b  |   | y\n|")
           [py "a b"; []]).
  vm_compute. left. reflexivity.
Defined.

Lemma fill_row_length (cols : nat) (row_data : list str) :
  length (fill_row cols row_data) = cols.
Proof.
  unfold fill_row. rewrite length_app, length_firstn, repeat_length. lia.
Qed.

(** X11.  When [create_table_slide] draws a table, the table is a full
    grid: it has as many rows as were parsed, two at least, as many
    columns as the first row has cells, one at least, and every row of
    it has exactly that many cells, the first row being the header as it
    was parsed.  Each row of the grid is the parsed row at the same
    place, cut to the number of columns when it is longer and filled up
    with empty cells when it is shorter. *)
Theorem drawn_table_is_a_full_grid :
  forall (prs : presentation) (title data : str) (t : table),
    create_table_slide prs title data = prs ++ [TableSlide title (Some t)] ->
    n_rows t = length (parse_table data) /\
    length (cell_text t) = n_rows t /\
    2 <= n_rows t /\ 1 <= n_cols t /\
    Forall (fun row => length row = n_cols t) (cell_text t) /\
    hd_error (cell_text t) = hd_error (parse_table data) /\
    n_cols t = length (hd [] (parse_table data)) /\
    cell_text t =
    map (fun row => firstn (n_cols t) row ++
                    repeat [] (n_cols t - length row))
        (parse_table data).
Proof.
  intros prs title data t H. unfold create_table_slide in H.
  apply app_inv_head in H.
  pose proof (parse_table_kept data) as Hk.
  destruct (1 <? length (parse_table data)) eqn:Hlen; [|discriminate].
  apply Nat.ltb_lt in Hlen.
  inversion H as [Ht]. clear H. cbn [n_rows n_cols cell_text].
  destruct (parse_table data) as [|header rest]; [simpl in Hlen; lia|].
  inversion Hk as [|? ? [Hne _] _]; subst.
  cbn [hd]. repeat split.
  - now rewrite length_map.
  - exact Hlen.
  - destruct header; [congruence | simpl; lia].
  - apply Forall_forall. intros row Hrow. apply in_map_iff in Hrow.
    destruct Hrow as [r [<- _]]. apply fill_row_length.
  - cbn [map hd_error]. unfold fill_row.
    now rewrite firstn_all, Nat.sub_diag, app_nil_r.
Qed.

Lemma drawn_table_is_a_full_grid_witness :
  let t := mk_table 3 2 [[py "a"; py "b"]; [py "1"; []]; [py "x"; py "y"]] in
  n_rows t = length (parse_table (py "| a | b |\n| 1 |\n| x | y | z |")) /\
  length (cell_text t) = n_rows t /\
  2 <= n_rows t /\ 1 <= n_cols t /\
  Forall (fun row => length row = n_cols t) (cell_text t) /\
  hd_error (cell_text t) =
  hd_error (parse_table (py "| a | b |\n| 1 |\n| x | y | z |")) /\
  n_cols t = length (hd [] (parse_table (py "| a | b |\n| 1 |\n| x | y | z |"))) /\
  cell_text t =
  map (fun row => firstn (n_cols t) row ++ repeat [] (n_cols t - length row))
      (parse_table (py "| a | b |\n| 1 |\n| x | y | z |")).
Proof.
  apply (drawn_table_is_a_full_grid [] (py "T")
           (py "| a | b |\n| 1 |\n| x | y | z |")).
  vm_compute. reflexivity.
Defined.

(* ================================================================== *)
(** * Proofs: the slides of a section *)
(* ================================================================== *)

Lemma process_section_from_empty (prs : presentation) (sec : section) :
  process_section str_title prs sec = prs ++ section_slides sec.
Proof.
  unfold section_slides, process_section.
  destruct (length (strip (sec_content sec)) <? 50).
  { now rewrite app_nil_r. }
  destruct (existsb _ allow_list).
  { now destruct (_ && _). }
  destruct (extract_code_blocks (sec_content sec)) as [|cb cbs].
  { now destruct (extract_key_points (sec_content sec)). }
  rewrite !fold_code_slides.
  destruct (extract_key_points (sec_content sec)); [reflexivity|].
  unfold create_content_slide. cbn [app]. now rewrite app_assoc.
Qed.

Lemma fold_process_section (secs : list section) :
  forall prs : presentation,
    fold_left (process_section str_title) secs prs = prs ++ flat_map section_slides secs.
Proof.
  induction secs as [|sec secs IH]; intros prs; simpl.
  - now rewrite app_nil_r.
  - rewrite IH, process_section_from_empty. now rewrite <- app_assoc.
Qed.

Lemma section_slides_length (sec : section) :
  length (section_slides sec) <= 3.
Proof.
  unfold section_slides, process_section.
  destruct (length (strip (sec_content sec)) <? 50); [simpl; lia|].
  destruct (existsb _ allow_list).
  { destruct (_ && _); simpl; lia. }
  destruct (extract_code_blocks (sec_content sec)) as [|cb cbs].
  { destruct (extract_key_points (sec_content sec)); simpl; lia. }
  rewrite fold_code_slides. cbn [app].
  assert (H : length (firstn 2 (cb :: cbs)) <= 2) by apply firstn_le_length.
  destruct (extract_key_points (sec_content sec));
    unfold create_content_slide; rewrite ?length_app, length_map;
    simpl length in *; lia.
Qed.

Lemma flat_map_length_bound (secs : list section) :
  length (flat_map section_slides secs) <= 3 * length secs.
Proof.
  induction secs as [|sec secs IH]; simpl; [lia|].
  rewrite length_app. pose proof (section_slides_length sec). lia.
Qed.

(** X14.  An allow-listed section gives one slide at most, a table slide
    or a bullet slide under the title of the section; the code blocks of
    its body give no code slide and its text no free-text slide. *)
Theorem allow_listed_section_gives_one_slide :
  forall sec : section,
    allow_listed sec = true ->
    length (section_slides sec) <= 1 /\
    forall sl : slide,
      In sl (section_slides sec) ->
      is_code_slide sl = false /\ is_text_slide sl = false /\
      ((exists grid, sl = TableSlide (sec_title sec) grid) \/
       (exists points, sl = ContentSlide (sec_title sec) (Bullets points))).
Proof.
  intros sec Hallow. unfold allow_listed in Hallow.
  unfold section_slides, process_section. rewrite Hallow.
  destruct (length (strip (sec_content sec)) <? 50).
  { split; [simpl; lia | intros sl []]. }
  destruct (_ && _).
  - split; [simpl; lia|]. intros sl [<- | []].
    repeat split. left. eexists. reflexivity.
  - split; [simpl; lia|]. intros sl [<- | []].
    repeat split. right. eexists. reflexivity.
Qed.

(** X15.  A bullet slide never comes without points and never holds more
    than eight: every bullet slide made for a section carries the title
    of the section and between one and eight points. *)
Theorem bullet_slide_holds_one_to_eight_points :
  forall (sec : section) (title : str) (points : list str),
    In (ContentSlide title (Bullets points)) (section_slides sec) ->
    title = sec_title sec /\ 1 <= length points <= 8.
Proof.
  intros sec title points. unfold section_slides, process_section.
  destruct (length (strip (sec_content sec)) <? 50); [intros []|].
  assert (Hkp : length (extract_key_points (sec_content sec)) <= 8)
    by apply firstn_le_length.
  destruct (existsb _ allow_list).
  { destruct (_ && _).
    - intros [H | []]. discriminate.
    - intros [H | []]. inversion H; subst. split; [reflexivity|].
      destruct (extract_key_points (sec_content sec)); simpl in *; lia. }
  destruct (extract_code_blocks (sec_content sec)) as [|cb cbs].
  { destruct (extract_key_points (sec_content sec)) eqn:Hk.
    - intros [H | []]. discriminate.
    - intros [H | []]. inversion H; subst. split; [reflexivity|].
      simpl in *; lia. }
  rewrite fold_code_slides. cbn [app].
  assert (Hcode : ~ In (ContentSlide title (Bullets points))
                       (map (fun cb0 : code_block =>
                               CodeSlide
                                 (sec_title sec ++ py " - " ++
                                  str_title (language cb0) ++ py " Code")
                                 (code cb0))
                            (firstn 2 (cb :: cbs)))).
  { intros H. apply in_map_iff in H. destruct H as [x [Hx _]]. discriminate. }
  destruct (extract_key_points (sec_content sec)) eqn:Hk.
  - intros H. now apply Hcode in H.
  - unfold create_content_slide. intros H. apply in_app_or in H.
    destruct H as [H | [H | []]]; [now apply Hcode in H|].
    inversion H; subst. split; [reflexivity | simpl in *; lia].
Qed.

(* ================================================================== *)
(** * Proofs: the free text *)
(* ================================================================== *)

Lemma sub_from_class (p : char -> bool) (subject : str) :
  forall (fuel : nat) (s : str),
    length s <= fuel ->
    sub_from fuel [One p] nothing subject s =
    filter (fun c => negb (p c)) s.
Proof.
  induction fuel as [|fuel IH]; intros s Hlen.
  - destruct s; [reflexivity | simpl in Hlen; lia].
  - destruct s as [|c s]; [reflexivity|].
    simpl in Hlen. cbn [sub_from run filter].
    destruct (p c); cbn [negb snd].
    + replace (length s <? length (c :: s)) with true
        by (symmetry; apply Nat.ltb_lt; simpl; lia).
      unfold nothing at 1. cbn [app]. apply IH. lia.
    + f_equal. apply IH. lia.
Qed.

Lemma count_filter_out (c : char) (f : char -> bool) (s : str) :
  f c = false -> count c (filter f s) = 0.
Proof.
  intros Hc. induction s as [|d s IH]; [reflexivity|].
  simpl. destruct (f d) eqn:Hd; [|exact IH].
  simpl. rewrite IH.
  destruct (d =? c)%N eqn:He; [|reflexivity].
  apply N.eqb_eq in He. congruence.
Qed.

Lemma count_join (c : char) (sep : str) (xs : list str) :
  count c sep = 0 -> Forall (fun x => count c x = 0) xs ->
  count c (join sep xs) = 0.
Proof.
  intros Hsep Hxs. induction Hxs as [|x xs Hx Hxs IH]; [reflexivity|].
  destruct xs as [|y ys]; [exact Hx|].
  change (join sep (x :: y :: ys)) with (x ++ sep ++ join sep (y :: ys)).
  rewrite !count_app. lia.
Qed.

(** X16.  The text of a free-text slide holds none of the characters
    [#], [*] and backtick, and it is on one line. *)
Theorem preview_has_no_marker :
  forall (content : str) (c : char),
    In c [ch "#"; ch "*"; backtick; nl] ->
    count c (preview content) = 0.
Proof.
  intros content c Hc. unfold preview.
  set (c1 := re_sub fenced_pattern nothing content).
  set (c2 := re_sub bare_link_pattern nothing c1).
  set (c3 := re_sub marker_pattern nothing c2).
  assert (Hlines : Forall (fun l => count c l = 0)
                     (map strip
                        (filter (fun line => negb (eqb (strip line) []))
                                (split nl c3)))).
  { apply Forall_forall. intros l Hl. apply in_map_iff in Hl.
    destruct Hl as [x [<- Hx]]. apply filter_In in Hx. destruct Hx as [Hx _].
    apply (fewer_count_zero c _ x (fewer_strip_with is_space x)).
    destruct Hc as [<- | [<- | [<- | [<- | []]]]].
    4: { pose proof (split_lines_free nl c3) as Hfree.
         rewrite Forall_forall in Hfree. now apply Hfree. }
    all: apply (fewer_count_zero _ x c3 (split_line_fewer nl c3 x Hx));
      unfold c3, re_sub, marker_pattern; rewrite sub_from_class by lia;
      now apply count_filter_out. }
  assert (Hsep : count c (py " ") = 0)
    by (destruct Hc as [<- | [<- | [<- | [<- | []]]]]; reflexivity).
  assert (Hdots : count c (py "...") = 0)
    by (destruct Hc as [<- | [<- | [<- | [<- | []]]]]; reflexivity).
  destruct (3 <? length _).
  - rewrite count_app, Hdots, count_join; [reflexivity | exact Hsep |].
    apply Forall_forall. intros l Hl. apply in_firstn in Hl.
    rewrite Forall_forall in Hlines. now apply Hlines.
  - now apply count_join.
Qed.

Lemma preview_has_no_marker_witness :
  count (ch "*") (preview (py "# Title *with* `marks`\n\nsecond line")) = 0.
Proof.
  apply (preview_has_no_marker (py "# Title *with* `marks`\n\nsecond line")
           (ch "*")).
  right. left. reflexivity.
Defined.

(* ================================================================== *)
(** * Proofs: what a conversion leaves behind *)
(* ================================================================== *)

Lemma skipn_length_app (A : Type) (a b : list A) :
  skipn (length a) (a ++ b) = b.
Proof. induction a as [|x a IH]; [reflexivity | exact IH]. Qed.


Lemma render_section_some (prs : presentation) (sec : section) :
  render_section str_title valid_char (Some prs) sec =
  if forallb (slide_ok valid_char) (section_slides sec)
  then Some (prs ++ section_slides sec)
  else None.
Proof.
  unfold render_section.
  now rewrite process_section_from_empty, skipn_length_app.
Qed.

Lemma fold_render_section_raised (secs : list section) :
  fold_left (render_section str_title valid_char) secs None = None.
Proof. induction secs as [|sec secs IH]; [reflexivity | exact IH]. Qed.

(** The loop over the sections goes through when every text of every
    slide is accepted, and raises otherwise. *)
Lemma fold_render_section (secs : list section) :
  forall prs : presentation,
    fold_left (render_section str_title valid_char) secs (Some prs) =
    if forallb (slide_ok valid_char) (flat_map section_slides secs)
    then Some (prs ++ flat_map section_slides secs)
    else None.
Proof.
  induction secs as [|sec secs IH]; intros prs.
  - simpl. now rewrite app_nil_r.
  - cbn [fold_left flat_map]. rewrite render_section_some, forallb_app.
    destruct (forallb (slide_ok valid_char) (section_slides sec)).
    + rewrite IH. cbn [andb].
      destruct (forallb (slide_ok valid_char) (flat_map section_slides secs));
        [now rewrite <- app_assoc | reflexivity].
    + apply fold_render_section_raised.
Qed.

Lemma generate_without_sections (writable : str -> bool)
      (readme_content output_filename : str) :
  parse_readme_content readme_content = [] ->
  generate_ppt_from_readme str_title valid_char writable readme_content
                           output_filename =
  Returned (mk_outcome None [] None [NoSectionsFound]).
Proof. intros H. unfold generate_ppt_from_readme. now rewrite H. Qed.

(** The three ways a conversion of a document with sections ends. *)
Lemma generate_with_sections (writable : str -> bool)
      (readme_content output_filename : str)
      (first : section) (rest : list section) :
  parse_readme_content readme_content = first :: rest ->
  let deck :=
    TitleSlide (strip (replace glyph [] (sec_title first))) default_subtitle
    :: planned_slides readme_content in
  generate_ppt_from_readme str_title valid_char writable readme_content
                           output_filename =
  if forallb (slide_ok valid_char) deck then
    if writable output_filename
    then Returned (mk_outcome (Some output_filename) deck
                              (Some (output_filename, deck)) [])
    else Returned (mk_outcome None deck None [ErrorSaving])
  else Raised.
Proof.
  intros Hparse deck.
  pose proof (parse_readme_content_titled readme_content) as Ht.
  unfold deck, planned_slides, generate_ppt_from_readme.
  rewrite Hparse in *.
  inversion Ht as [|? ? Hfirst _]; subst. unfold titled in Hfirst.
  rewrite Hfirst. unfold create_title_slide. cbn [app forallb].
  rewrite andb_true_r.
  destruct (slide_ok valid_char
              (TitleSlide (strip (replace glyph [] (sec_title first)))
                          default_subtitle)); [|reflexivity].
  rewrite fold_render_section. cbn [andb app].
  now destruct (forallb (slide_ok valid_char)
                        (flat_map section_slides (first :: rest))).
Qed.

Lemma replace_absent (old new : str) :
  forall s : str, contains old s = false -> replace old new s = s.
Proof.
  unfold replace. induction s as [|c s IH]; [reflexivity|].
  cbn [contains replace_from]. intros H.
  apply orb_false_iff in H. destruct H as [Hs Hc].
  rewrite Hs. now rewrite IH.
Qed.

Lemma section_title_trimmed (content : str) (sec : section) :
  In sec (parse_readme_content content) ->
  strip (sec_title sec) = sec_title sec.
Proof.
  intros Hin.
  assert (Hs : In (sec_title sec) (section_titles (lines_of content))).
  { unfold parse_readme_content in Hin. fold (lines_of content) in Hin.
    rewrite <- (app_nil_l (section_titles _)).
    change (@nil str) with (map sec_title (save_section parse_start)).
    rewrite <- parse_lines_titles. now apply in_map. }
  unfold section_titles in Hs. apply filter_In in Hs.
  destruct Hs as [Hs _]. apply in_map_iff in Hs.
  destruct Hs as [l [<- _]]. unfold heading_title, strip.
  apply strip_with_idem.
Qed.

(** C6 (as amended).  For a document without sections the conversion
    returns without having made any slide, so the fixed title is never
    shown.  For a document with at least one section whose first title
    holds no rocket (neither the character U+1F680 nor the spelling of
    it in the source), a conversion that returns has the title slide as
    the first slide of its deck: the title is the title of the first
    section, and the subtitle is the fixed subtitle, which no section
    changes. *)
Theorem title_slide_comes_from_first_section :
  forall (writable : str -> bool) (readme_content output_filename : str),
    (parse_readme_content readme_content = [] ->
     generate_ppt_from_readme str_title valid_char writable readme_content
                              output_filename =
     Returned (mk_outcome None [] None [NoSectionsFound])) /\
    (forall (first : section) (rest : list section) (o : outcome),
        parse_readme_content readme_content = first :: rest ->
        glyph_free (sec_title first) = true ->
        generate_ppt_from_readme str_title valid_char writable
                                 readme_content output_filename =
        Returned o ->
        hd_error (rendered o) =
        Some (TitleSlide (sec_title first) default_subtitle)).
Proof.
  intros writable content out. split.
  - apply generate_without_sections.
  - intros first rest o Hparse Hfree Hrun.
    rewrite (generate_with_sections writable content out first rest Hparse)
      in Hrun.
    assert (Htitle : strip (replace glyph [] (sec_title first)) =
                     sec_title first).
    { unfold glyph_free in Hfree. apply andb_true_iff in Hfree.
      destruct Hfree as [Hg _]. apply negb_true_iff in Hg.
      rewrite (replace_absent glyph [] _ Hg).
      apply (section_title_trimmed content). rewrite Hparse. now left. }
    rewrite Htitle in Hrun.
    destruct (forallb _ _); [|discriminate].
    destruct (writable out); inversion Hrun; reflexivity.
Qed.

(** X12.  The slides made for a section do not depend on the slides
    made before it, and the deck of a conversion that returns for a
    document with sections is a title slide with the fixed subtitle
    followed by the slides of each section, in the order of the
    sections. *)
Theorem deck_is_title_slide_then_sections :
  forall (writable : str -> bool) (readme_content output_filename : str),
    (forall (prs : presentation) (sec : section),
        process_section str_title prs sec = prs ++ section_slides sec) /\
    (forall o : outcome,
        parse_readme_content readme_content <> [] ->
        generate_ppt_from_readme str_title valid_char writable
                                 readme_content output_filename =
        Returned o ->
        exists title : str,
          rendered o =
          TitleSlide title default_subtitle
          :: flat_map section_slides (parse_readme_content readme_content)).
Proof.
  intros writable content out. split; [apply process_section_from_empty|].
  intros o Hne Hrun.
  destruct (parse_readme_content content) as [|first rest] eqn:Hparse;
    [congruence|].
  rewrite (generate_with_sections writable content out first rest Hparse)
    in Hrun.
  unfold planned_slides in Hrun. rewrite Hparse in Hrun.
  exists (strip (replace glyph [] (sec_title first))).
  destruct (forallb _ _); [|discriminate].
  destruct (writable out); inversion Hrun; reflexivity.
Qed.

(** X13.  A section gives three slides at most (two code slides and a
    bullet slide), so the deck of a conversion that returns has at most
    one slide and three for each section. *)
Theorem deck_has_three_slides_a_section_at_most :
  forall (writable : str -> bool) (readme_content output_filename : str),
    (forall sec : section, length (section_slides sec) <= 3) /\
    (forall o : outcome,
        generate_ppt_from_readme str_title valid_char writable
                                 readme_content output_filename =
        Returned o ->
        length (rendered o) <=
        1 + 3 * length (parse_readme_content readme_content)).
Proof.
  intros writable content out.
  split; [exact section_slides_length|].
  intros o Hrun.
  destruct (parse_readme_content content) as [|first rest] eqn:Hparse.
  - rewrite (generate_without_sections writable content out Hparse) in Hrun.
    inversion Hrun. simpl. lia.
  - rewrite (generate_with_sections writable content out first rest Hparse)
      in Hrun.
    pose proof (flat_map_length_bound (first :: rest)) as Hb.
    unfold planned_slides in Hrun. rewrite Hparse in Hrun.
    destruct (forallb _ _); [|discriminate].
    destruct (writable out); inversion Hrun; subst; cbn [rendered];
      simpl length in *; lia.
Qed.


(* ================================================================== *)
(** * Proofs: the slide of a compact table *)
(* ================================================================== *)

Lemma startswith_app (sub a b : str) :
  startswith sub a = true -> startswith sub (a ++ b) = true.
Proof.
  revert a. induction sub as [|p sub IH]; intros a H; [reflexivity|].
  destruct a as [|c a]; [discriminate|].
  simpl in *. apply andb_true_iff in H. destruct H as [Hc Ha].
  now rewrite Hc, IH.
Qed.

Lemma startswith_contains (sub s : str) :
  startswith sub s = true -> contains sub s = true.
Proof. intros H. destruct s; simpl in *; now rewrite H. Qed.

Lemma contains_app_r (sub a b : str) :
  contains sub b = true -> contains sub (a ++ b) = true.
Proof.
  intros H. induction a as [|c a IH]; [exact H|].
  cbn [app contains]. rewrite IH. apply orb_true_r.
Qed.

Lemma contains_app_l (sub a b : str) :
  contains sub a = true -> contains sub (a ++ b) = true.
Proof.
  induction a as [|c a IH]; intros H.
  - simpl in H. rewrite orb_false_r in H.
    apply startswith_contains. now apply (startswith_app sub [] b).
  - cbn [app contains] in *. apply orb_true_iff in H.
    destruct H as [H | H].
    + pose proof (startswith_app sub (c :: a) b H) as H'.
      cbn [app] in H'. now rewrite H'.
    + rewrite IH by exact H. apply orb_true_r.
Qed.

(** What [strip] returns is a piece of the text. *)
Lemma strip_with_infix (p : char -> bool) (s : str) :
  exists u v, s = u ++ strip_with p s ++ v.
Proof.
  unfold strip_with, rstrip.
  destruct (lstrip_suffix p s) as [u Hu].
  destruct (lstrip_suffix p (rev (lstrip p s))) as [w Hw].
  exists u, (rev w).
  rewrite <- rev_app_distr, <- Hw, rev_involutive. exact Hu.
Qed.

Lemma separator_has_hyphens (line : str) :
  is_separator line = true -> contains (py "---") line = true.
Proof.
  unfold is_separator, strip. intros H.
  destruct (strip_with_infix is_space line) as [u [v Huv]].
  rewrite Huv. apply contains_app_r, contains_app_l.
  destruct (strip_with is_space line) as [|c x]; [discriminate|].
  change (py "|---") with (ch "|" :: py "---") in H.
  cbn [startswith] in H. apply andb_true_iff in H. destruct H as [_ H].
  cbn [contains]. rewrite (startswith_contains _ _ H). apply orb_true_r.
Qed.

Lemma fill_row_full (cols : nat) (row_data : list str) :
  length row_data = cols -> fill_row cols row_data = row_data.
Proof.
  intros <-. unfold fill_row.
  now rewrite firstn_all, Nat.sub_diag, app_nil_r.
Qed.

(** X18.  For an allow-listed section whose body is a table written in
    the compact way (a header of [H] cells, a separator row that starts
    with a pipe and three hyphens, and [R] data rows of [H] cells each,
    one at least) and has at least 50 characters once trimmed, exactly
    one slide is added: the table slide of the section, with [R + 1]
    rows and [H] columns, whose cells are the trimmed cells of the
    header and of the data rows. *)
Theorem compact_table_gives_its_table_slide :
  forall (prs : presentation) (title : str) (level : nat)
         (header : list str) (rows : list (list str)) (separator : str),
    existsb (eqb (lower title)) allow_list = true ->
    forallb row_ok (header :: rows) = true ->
    forallb (fun r => negb (is_separator (row_line r))) (header :: rows)
    = true ->
    forallb (fun r => length r =? length header) rows = true ->
    rows <> [] ->
    is_separator separator = true ->
    has_char nl separator = false ->
    let content :=
      join [nl] (row_line header :: separator :: map row_line rows) in
    50 <= length (strip content) ->
    process_section str_title prs (mk_section title content level) =
    prs ++
    [TableSlide title
       (Some (mk_table (length rows + 1) (length header)
                       (map (map strip) (header :: rows))))].
Proof.
  intros prs title level header rows separator
         Hallow Hok Hsep Hlen Hrows Hs Hnl content Hlong.
  destruct (compact_table_is_parsed header rows separator
              Hok Hsep Hlen Hs Hnl) as [Hparse [Hcount Hcells]].
  fold content in Hparse, Hcount, Hcells.
  assert (Htable : table_bearing (mk_section title content level) = true).
  { unfold table_bearing. cbn [sec_content]. apply andb_true_iff. split.
    - unfold content, row_line, has_char. cbn [join app existsb].
      now rewrite N.eqb_refl.
    - unfold content.
      change (join [nl] (row_line header :: separator :: map row_line rows))
        with (row_line header ++ [nl] ++
              join [nl] (separator :: map row_line rows)).
      apply contains_app_r, contains_app_r.
      destruct (map row_line rows) as [|r rs].
      + now apply separator_has_hyphens.
      + change (join [nl] (separator :: r :: rs))
          with (separator ++ [nl] ++ join [nl] (r :: rs)).
        now apply contains_app_l, separator_has_hyphens. }
  rewrite process_table_section; [|exact Hallow | exact Htable].
  cbn [sec_content sec_title].
  replace (length (strip content) <? 50) with false
    by (symmetry; apply Nat.ltb_ge; exact Hlong).
  unfold create_table_slide. rewrite Hparse.
  cbn [map length hd]. rewrite !length_map.
  replace (1 <? S (length rows)) with true
    by (symmetry; apply Nat.ltb_lt; destruct rows; [congruence | simpl; lia]).
  replace (S (length rows)) with (length rows + 1) by lia.
  assert (Hgrid :
            fill_row (length header) (map strip header)
            :: map (fill_row (length header)) (map (map strip) rows) =
            map strip header :: map (map strip) rows);
    [|now rewrite Hgrid].
  apply f_equal2.
  - apply fill_row_full. apply length_map.
  - rewrite <- (map_id (map (map strip) rows)) at 2.
    apply map_ext_in. intros r Hr. apply in_map_iff in Hr.
    destruct Hr as [r0 [<- Hr0]].
    apply fill_row_full. rewrite length_map.
    rewrite forallb_forall in Hlen. now apply Nat.eqb_eq, Hlen.
Qed.

(* ================================================================== *)
(** * Proofs: code slides and free-text slides *)
(* ================================================================== *)

Lemma flat_map_slide_code_of_code_slides
      (title_of : code_block -> str) (blocks : list code_block) :
  flat_map slide_code
           (map (fun cb => CodeSlide (title_of cb) (code cb)) blocks) =
  map code blocks.
Proof.
  induction blocks as [|cb cbs IH]; [reflexivity|].
  simpl. now rewrite IH.
Qed.

(** X19.  The code slides of a section that is not allow-listed and is
    long enough show the code of its first two code blocks, in order and
    unchanged; the blocks after the second are not shown.  An
    allow-listed section has no code slide. *)
Theorem code_slides_show_the_first_two_blocks :
  forall sec : section,
    50 <= length (strip (sec_content sec)) ->
    flat_map slide_code (section_slides sec) =
    if allow_listed sec then []
    else map code (firstn 2 (extract_code_blocks (sec_content sec))).
Proof.
  intros sec Hlong. unfold section_slides, process_section, allow_listed.
  replace (length (strip (sec_content sec)) <? 50) with false
    by (symmetry; apply Nat.ltb_ge; exact Hlong).
  destruct (existsb _ allow_list).
  { now destruct (_ && _). }
  destruct (extract_code_blocks (sec_content sec)) as [|cb cbs].
  { now destruct (extract_key_points (sec_content sec)). }
  rewrite fold_code_slides. cbn [app].
  destruct (extract_key_points (sec_content sec)).
  - apply flat_map_slide_code_of_code_slides.
  - unfold create_content_slide. rewrite flat_map_app.
    rewrite flat_map_slide_code_of_code_slides. cbn [flat_map slide_code app].
    now rewrite app_nil_r.
Qed.

(** X20.  The free-text slide is the last resort: a section gets one
    only when it is not allow-listed, has no code block and has no key
    point; the slide then carries the title of the section and the
    preview of its body, and it is the only slide of the section. *)
Theorem text_slide_is_the_last_resort :
  forall (sec : section) (title text : str),
    In (ContentSlide title (Text text)) (section_slides sec) ->
    allow_listed sec = false /\
    extract_code_blocks (sec_content sec) = [] /\
    extract_key_points (sec_content sec) = [] /\
    section_slides sec =
    [ContentSlide (sec_title sec) (Text (preview (sec_content sec)))].
Proof.
  intros sec title text. unfold section_slides, process_section, allow_listed.
  destruct (length (strip (sec_content sec)) <? 50); [intros []|].
  destruct (existsb _ allow_list).
  { destruct (_ && _); intros [H | []]; discriminate. }
  destruct (extract_code_blocks (sec_content sec)) as [|cb cbs].
  { destruct (extract_key_points (sec_content sec)).
    - intros _. now repeat split.
    - intros [H | []]. discriminate. }
  rewrite fold_code_slides. cbn [app].
  assert (Hcode : ~ In (ContentSlide title (Text text))
                       (map (fun cb0 : code_block =>
                               CodeSlide
                                 (sec_title sec ++ py " - " ++
                                  str_title (language cb0) ++ py " Code")
                                 (code cb0))
                            (firstn 2 (cb :: cbs)))).
  { intros H. apply in_map_iff in H. destruct H as [x [Hx _]]. discriminate. }
  destruct (extract_key_points (sec_content sec)).
  - intros H. now apply Hcode in H.
  - unfold create_content_slide. intros H. apply in_app_or in H.
    destruct H as [H | [H | []]]; [now apply Hcode in H | discriminate].
Qed.

(* ================================================================== *)
(** * Proofs: reading a line for its links *)
(* ================================================================== *)








(* ================================================================== *)
(** * Proofs: what a match takes *)
(* ================================================================== *)








(* ================================================================== *)
(** * Proofs: the links of a cleaned point *)
(* ================================================================== *)





















End Deck.

(* ================================================================== *)
(** * Runs on concrete documents *)
(* ================================================================== *)

(** The runs below take the ASCII title case for [str.title], and a
    presentation library that accepts every character and a file system
    that takes every file, unless others are given. *)

Lemma no_heading_is_a_hard_failure_witness :
  generate_ppt_from_readme title_ascii every_char every_file
    (py "just some text\n### not a section\n#no space") (py "deck.pptx") =
  Returned (mk_outcome None [] None [NoSectionsFound]).
Proof.
  apply (no_heading_is_a_hard_failure title_ascii every_char every_file
           (py "just some text\n### not a section\n#no space")
           (py "deck.pptx")).
  vm_compute. reflexivity.
Defined.

(** C6 (as stated) fails.  For the empty document the conversion returns
    without any slide, so the fixed pair of title and subtitle is not
    used; for a document with a section the subtitle of the title slide
    is the fixed subtitle, the first section gives the title only. *)
Lemma subtitle_is_fixed_and_empty_document_has_no_title_slide :
  generate_ppt_from_readme title_ascii every_char every_file []
                           (py "deck.pptx") =
  Returned (mk_outcome None [] None [NoSectionsFound]) /\
  parse_readme_content (py "# Demo\nOverview") =
  [mk_section (py "Demo") (py "Overview") 0] /\
  generate_ppt_from_readme title_ascii every_char every_file
                           (py "# Demo\nOverview") (py "deck.pptx") =
  Returned
    (mk_outcome (Some (py "deck.pptx"))
                [TitleSlide (py "Demo") default_subtitle]
                (Some (py "deck.pptx",
                       [TitleSlide (py "Demo") default_subtitle]))
                []).
Proof. repeat split; reflexivity. Qed.

Lemma title_slide_comes_from_first_section_witness :
  hd_error [TitleSlide (py "Demo") default_subtitle] =
  Some (TitleSlide (py "Demo") default_subtitle).
Proof.
  apply (proj2 (title_slide_comes_from_first_section
                  title_ascii every_char every_file
                  (py "# Demo\nOverview") (py "deck.pptx"))
               (mk_section (py "Demo") (py "Overview") 0) []
               (mk_outcome (Some (py "deck.pptx"))
                           [TitleSlide (py "Demo") default_subtitle]
                           (Some (py "deck.pptx",
                                  [TitleSlide (py "Demo") default_subtitle]))
                           [])).
  - reflexivity.
  - reflexivity.
  - reflexivity.
Defined.

Lemma deck_is_title_slide_then_sections_witness :
  exists title : str,
    [TitleSlide (py "Demo") default_subtitle;
     ContentSlide (py "Demo") (Bullets [py "point one"; py "point two"])] =
    TitleSlide title default_subtitle
    :: flat_map (section_slides title_ascii)
         (parse_readme_content
            (py "# Demo\nIntro text here that is definitely over fifty characters long.\n- point one\n- point two\n")).
Proof.
  apply (proj2 (deck_is_title_slide_then_sections
                  title_ascii every_char every_file
                  (py "# Demo\nIntro text here that is definitely over fifty characters long.\n- point one\n- point two\n")
                  (py "demo.pptx"))
               (mk_outcome (Some (py "demo.pptx"))
                  [TitleSlide (py "Demo") default_subtitle;
                   ContentSlide (py "Demo")
                     (Bullets [py "point one"; py "point two"])]
                  (Some (py "demo.pptx",
                         [TitleSlide (py "Demo") default_subtitle;
                          ContentSlide (py "Demo")
                            (Bullets [py "point one"; py "point two"])]))
                  [])).
  - vm_compute. discriminate.
  - reflexivity.
Defined.

Lemma deck_has_three_slides_a_section_at_most_witness :
  length [TitleSlide (py "Demo") default_subtitle] <=
  1 + 3 * length (parse_readme_content (py "# Demo\nOverview")).
Proof.
  apply (proj2 (deck_has_three_slides_a_section_at_most
                  title_ascii every_char every_file
                  (py "# Demo\nOverview") (py "deck.pptx"))
               (mk_outcome (Some (py "deck.pptx"))
                           [TitleSlide (py "Demo") default_subtitle]
                           (Some (py "deck.pptx",
                                  [TitleSlide (py "Demo") default_subtitle]))
                           [])).
  reflexivity.
Defined.

(** The first scenario of the specification. *)
Example scenario_demo :
  generate_ppt_from_readme title_ascii every_char every_file
    (py "# Demo\nIntro text here that is definitely over fifty characters long.\n- point one\n- point two\n")
    (py "demo.pptx") =
  let deck :=
    [TitleSlide (py "Demo") default_subtitle;
     ContentSlide (py "Demo") (Bullets [py "point one"; py "point two"])] in
  Returned
    (mk_outcome (Some (py "demo.pptx")) deck (Some (py "demo.pptx", deck)) []).
Proof. reflexivity. Qed.

Example save_failure_returns_nothing :
  generate_ppt_from_readme title_ascii every_char (fun _ => false)
                           (py "# Demo\nOverview") (py "deck.pptx") =
  Returned (mk_outcome None [TitleSlide (py "Demo") default_subtitle] None
                       [ErrorSaving]).
Proof. reflexivity. Qed.

(** A library that rejects U+FFFE raises on a title that holds it,
    before anything is saved. *)
Example rejected_title_raises :
  generate_ppt_from_readme title_ascii (fun c => negb (c =? 65534)%N)
                           every_file
                           (py "# A" ++ [65534%N] ++ py "\nOverview")
                           (py "deck.pptx") =
  Raised.
Proof. reflexivity. Qed.

Lemma short_table_leaves_a_slide_without_table_witness :
  process_section title_ascii []
    (mk_section (py "API Endpoints")
       (py "| Endpoint | Method | Description of the endpoint |\n|---|---|---|")
       0) =
  [TableSlide (py "API Endpoints") None].
Proof.
  apply (short_table_leaves_a_slide_without_table title_ascii []
           (mk_section (py "API Endpoints")
              (py "| Endpoint | Method | Description of the endpoint |\n|---|---|---|")
              0)).
  - vm_compute. reflexivity.
  - vm_compute. reflexivity.
  - vm_compute. lia.
Defined.

(** C5 (as stated) fails: the section is allow-listed and table-bearing,
    its table keeps one row only, and a slide made by
    [create_table_slide] is appended for it. *)
Lemma short_table_still_adds_a_slide :
  let sec :=
    mk_section (py "API Endpoints")
      (py "| Endpoint | Method | Description of the endpoint |\n|---|---|---|")
      0 in
  allow_listed sec = true /\ table_bearing sec = true /\
  length (parse_table (sec_content sec)) = 1 /\
  slides_added title_ascii [] sec = [TableSlide (py "API Endpoints") None] /\
  existsb is_table_slide (slides_added title_ascii [] sec) = true.
Proof. vm_compute. repeat split; reflexivity. Qed.

Lemma allow_listed_section_gives_one_slide_witness :
  let sec :=
    mk_section (py "Project Structure")
      (py "The layout of the project:\n```\nsrc/\n  ppt.py\n```\nNothing else is needed.")
      0 in
  length (section_slides title_ascii sec) <= 1 /\
  forall sl : slide,
    In sl (section_slides title_ascii sec) ->
    is_code_slide sl = false /\ is_text_slide sl = false /\
    ((exists grid, sl = TableSlide (sec_title sec) grid) \/
     (exists points, sl = ContentSlide (sec_title sec) (Bullets points))).
Proof.
  apply (allow_listed_section_gives_one_slide title_ascii
           (mk_section (py "Project Structure")
              (py "The layout of the project:\n```\nsrc/\n  ppt.py\n```\nNothing else is needed.")
              0)).
  reflexivity.
Defined.

Lemma bullet_slide_holds_one_to_eight_points_witness :
  py "Usage" = py "Usage" /\ 1 <= length [py "install"; py "run"] <= 8.
Proof.
  apply (bullet_slide_holds_one_to_eight_points title_ascii
           (mk_section (py "Usage")
              (py "How to use the converter on a project of yours:\n- install\n- run")
              0)).
  vm_compute. left. reflexivity.
Defined.

Lemma compact_table_gives_its_table_slide_witness :
  process_section title_ascii []
    (mk_section (py "API Endpoints")
       (join [nl]
          (row_line [py " Path "; py " Method "]
           :: py "|------|--------|"
           :: map row_line [[py " /tags "; py " GET "];
                            [py " /tags "; py " POST "]]))
       2) =
  [TableSlide (py "API Endpoints")
     (Some (mk_table 3 2
              [[py "Path"; py "Method"]; [py "/tags"; py "GET"];
               [py "/tags"; py "POST"]]))].
Proof.
  apply (compact_table_gives_its_table_slide title_ascii [] (py "API Endpoints") 2
           [py " Path "; py " Method "]
           [[py " /tags "; py " GET "]; [py " /tags "; py " POST "]]
           (py "|------|--------|")).
  - reflexivity.
  - reflexivity.
  - reflexivity.
  - reflexivity.
  - discriminate.
  - reflexivity.
  - reflexivity.
  - vm_compute. repeat constructor.
Defined.

Lemma code_slides_show_the_first_two_blocks_witness :
  flat_map slide_code
    (section_slides title_ascii
       (mk_section (py "Install")
          (py "Three ways to install the tool:\n```sh\npip install a\n```\n```sh\nmake\n```\n```\nthird\n```")
          0)) =
  [py "pip install a"; py "make"].
Proof.
  apply (code_slides_show_the_first_two_blocks title_ascii
           (mk_section (py "Install")
              (py "Three ways to install the tool:\n```sh\npip install a\n```\n```sh\nmake\n```\n```\nthird\n```")
              0)).
  vm_compute. repeat constructor.
Defined.

Lemma text_slide_is_the_last_resort_witness :
  let sec :=
    mk_section (py "About")
      (py "This tool turns a README into a deck.\nIt needs nothing but the file.")
      0 in
  allow_listed sec = false /\
  extract_code_blocks (sec_content sec) = [] /\
  extract_key_points (sec_content sec) = [] /\
  section_slides title_ascii sec =
  [ContentSlide (sec_title sec) (Text (preview (sec_content sec)))].
Proof.
  apply (text_slide_is_the_last_resort title_ascii
           (mk_section (py "About")
              (py "This tool turns a README into a deck.\nIt needs nothing but the file.")
              0)
           (py "About")
           (py "This tool turns a README into a deck. It needs nothing but the file.")).
  vm_compute. left. reflexivity.
Defined.

(** A section with a table of three rows and two columns. *)
Example scenario_table :
  process_section title_ascii []
    (mk_section (py "API Endpoints")
       (py "| Path | Method |\n|------|--------|\n| /tags | GET |\n| /tags | POST |")
       0) =
  [TableSlide (py "API Endpoints")
     (Some (mk_table 3 2
              [[py "Path"; py "Method"]; [py "/tags"; py "GET"];
               [py "/tags"; py "POST"]]))].
Proof. reflexivity. Qed.

Example scenario_short_section :
  process_section title_ascii [] (mk_section (py "Notes") (py "- too short") 0) = [].
Proof. reflexivity. Qed.
